(** * TinyRPC [StreamBuffer]: a shallow embedding of [TinyRPC/streambuffer.h]

    The class keeps a raw [char *] region together with three [size_t]
    offsets.  The embedding keeps the same five fields, models the C heap as
    a finite map from block addresses to byte lists, writes out the 64-bit
    wrap-around of every [size_t] operation, and threads the heap through a
    small outcome monad that distinguishes a normal return, a failed
    [ASSERT] and undefined behaviour.  The private copy constructor and
    assignment operator only forbid copying and have no counterpart here. *)

From Stdlib Require Import ZArith Lia Strings.Byte Strings.String.
From stdpp Require Import gmap list strings.

Local Open Scope Z_scope.

(** * Definitions *)

(** ** [size_t] arithmetic *)

Module SizeT.

(** [size_t] is taken to be 64 bits wide. *)
Definition modulus : Z := Eval cbv in 2 ^ 64.
Definition SIZE_MAX : Z := Eval cbv in 2 ^ 64 - 1.

(** No object is larger than [PTRDIFF_MAX] bytes. *)
Definition PTRDIFF_MAX : Z := Eval cbv in 2 ^ 63 - 1.

Definition in_range (x : Z) : Prop := 0 <= x < modulus.

Definition add (a b : Z) : Z := (a + b) mod modulus.
Definition sub (a b : Z) : Z := (a - b) mod modulus.

(** [std::max] on two [size_t] values. *)
Definition max (a b : Z) : Z := if a <? b then b else a.

End SizeT.

(** ** The heap and the allocator *)

(** Block addresses are positive numbers, a pointer is an [N] whose value
    [0] is [NULL]. *)
Abbreviation heap := (gmap positive (list byte)).

Definition NULL : N := 0%N.

Definition deref (h : heap) (p : N) : option (list byte) :=
  match p with
  | N0 => None
  | Npos q => h !! q
  end.

(** What the C library leaves open is supplied by an oracle: whether a
    request is turned down, whether [realloc] moves the block, and which
    bytes happen to sit in memory that was never written. *)
Record allocator : Type := {
  refuses : heap -> Z -> bool;
  moves : heap -> positive -> Z -> bool;
  junk : heap -> nat -> byte
}.

Definition fresh_block (h : heap) : positive := fresh (dom h).

Definition fresh_bytes (al : allocator) (h : heap) (from n : nat) : list byte :=
  map (junk al h) (seq from n).

(** A request is granted when the oracle does not turn it down and the
    object would not exceed [PTRDIFF_MAX]. *)
Definition grants (al : allocator) (h : heap) (n : Z) : bool :=
  negb (refuses al h n) && (n <=? SizeT.PTRDIFF_MAX).

Inductive outcome (A : Type) : Type :=
| Done (a : A) (h : heap)
| Fatal (msg : string) (h : heap)
| Undefined.
Arguments Done {A} a h.
Arguments Fatal {A} msg h.
Arguments Undefined {A}.

Definition M (A : Type) : Type := heap -> outcome A.

Definition ret {A} (a : A) : M A := fun h => Done a h.

Definition bind {A B} (m : M A) (k : A -> M B) : M B :=
  fun h =>
    match m h with
    | Done a h' => k a h'
    | Fatal msg h' => Fatal msg h'
    | Undefined => Undefined
    end.

Declare Scope cpp_scope.
Delimit Scope cpp_scope with cpp.
Notation "x <- m ;; k" := (bind m (fun x => k))
  (at level 100, m at next level, right associativity) : cpp_scope.
Notation "m ;; k" := (bind m (fun _ => k))
  (at level 100, right associativity) : cpp_scope.
Local Open Scope cpp_scope.

Definition undefined {A} : M A := fun _ => Undefined.

(** Modelled from the spec: [ASSERT] is a macro of [logging.h], which is not
    among the sources.  A violated precondition "must abort execution
    immediately with a diagnostic", so a false condition ends the call in
    [Fatal] with the heap as it is at that moment. *)
Definition ASSERT (cond : bool) (msg : string) : M unit :=
  fun h => if cond then Done tt h else Fatal msg h.

(** Modelled from the spec: [LOG] and [WARN] are macros of [logging.h] too.
    They "emit a diagnostic signal but continue normally". *)
Definition LOG (msg : string) : M unit := ret tt.
Definition WARN (msg : string) : M unit := ret tt.

Definition malloc (al : allocator) (n : Z) : M N :=
  fun h =>
    if grants al h n
    then let q := fresh_block h in
         Done (Npos q) (<[q := fresh_bytes al h 0 (Z.to_nat n)]> h)
    else Done NULL h.

Definition resized (al : allocator) (h : heap) (old : list byte) (n : Z) : list byte :=
  take (Z.to_nat n) old
    ++ fresh_bytes al h (length old) (Z.to_nat n - length old).

Definition realloc (al : allocator) (p : N) (n : Z) : M N :=
  match p with
  | N0 => malloc al n
  | Npos q =>
      fun h =>
        match h !! q with
        | None => Undefined
        | Some old =>
            if grants al h n
            then if moves al h q n
                 then let q' := fresh_block h in
                      Done (Npos q') (<[q' := resized al h old n]> (delete q h))
                 else Done (Npos q) (<[q := resized al h old n]> h)
            else Done NULL h
        end
  end.

Definition free (p : N) : M unit :=
  match p with
  | N0 => ret tt
  | Npos q =>
      fun h =>
        match h !! q with
        | None => Undefined
        | Some _ => Done tt (delete q h)
        end
  end.

(** ** Copying bytes *)

Definition zlen (l : list byte) : Z := Z.of_nat (length l).

(** The first [size] bytes behind a pointer the caller passed in. *)
Definition from_caller (buf : list byte) (size : Z) : M (list byte) :=
  if (0 <=? size) && (size <=? zlen buf)
  then ret (take (Z.to_nat size) buf)
  else undefined.

(** Read [n] bytes at [p + off]. *)
Definition peek (p : N) (off n : Z) : M (list byte) :=
  fun h =>
    match deref h p with
    | Some blk =>
        if (0 <=? off) && (0 <=? n) && (off + n <=? zlen blk)
        then Done (take (Z.to_nat n) (drop (Z.to_nat off) blk)) h
        else Undefined
    | None => Undefined
    end.

Definition splice (blk : list byte) (off : Z) (data : list byte) : list byte :=
  take (Z.to_nat off) blk ++ data ++ drop (Z.to_nat off + length data) blk.

(** Store [data] at [p + off]. *)
Definition poke (p : N) (off : Z) (data : list byte) : M unit :=
  fun h =>
    match p with
    | N0 => Undefined
    | Npos q =>
        match h !! q with
        | Some blk =>
            if (0 <=? off) && (off + zlen data <=? zlen blk)
            then Done tt (<[q := splice blk off data]> h)
            else Undefined
        | None => Undefined
        end
    end.

(** [memcpy(dst + doff, buf, size)] with [buf] in the caller's memory. *)
Definition memcpy_in (dst : N) (doff : Z) (buf : list byte) (size : Z) : M unit :=
  data <- from_caller buf size ;; poke dst doff data.

(** [memcpy(dst + doff, src + soff, n)] and [memmove] between heap blocks. *)
Definition memcpy (dst : N) (doff : Z) (src : N) (soff n : Z) : M unit :=
  data <- peek src soff n ;; poke dst doff data.

(** ** The class *)

Definition SHRINK_WITH_GET : bool := false.
Definition GROW_SIZE : Z := 1024.
Definition RESERVED_HEADER_SPACE : Z := 64.

Record StreamBuffer : Type := {
  buf_ : N;
  const_buf_ : bool;
  pend_ : Z;
  gpos_ : Z;
  ppos_ : Z
}.

Definition set_buf_ (v : N) (b : StreamBuffer) : StreamBuffer :=
  {| buf_ := v; const_buf_ := const_buf_ b; pend_ := pend_ b;
     gpos_ := gpos_ b; ppos_ := ppos_ b |}.
Definition set_const_buf_ (v : bool) (b : StreamBuffer) : StreamBuffer :=
  {| buf_ := buf_ b; const_buf_ := v; pend_ := pend_ b;
     gpos_ := gpos_ b; ppos_ := ppos_ b |}.
Definition set_pend_ (v : Z) (b : StreamBuffer) : StreamBuffer :=
  {| buf_ := buf_ b; const_buf_ := const_buf_ b; pend_ := v;
     gpos_ := gpos_ b; ppos_ := ppos_ b |}.
Definition set_gpos_ (v : Z) (b : StreamBuffer) : StreamBuffer :=
  {| buf_ := buf_ b; const_buf_ := const_buf_ b; pend_ := pend_ b;
     gpos_ := v; ppos_ := ppos_ b |}.
Definition set_ppos_ (v : Z) (b : StreamBuffer) : StreamBuffer :=
  {| buf_ := buf_ b; const_buf_ := const_buf_ b; pend_ := pend_ b;
     gpos_ := gpos_ b; ppos_ := v |}.

(** [StreamBuffer()] *)
Definition StreamBuffer_owned (al : allocator) : M StreamBuffer :=
  p <- malloc al (RESERVED_HEADER_SPACE * 2) ;;
  ret {| buf_ := p; const_buf_ := false;
         pend_ := RESERVED_HEADER_SPACE * 2;
         gpos_ := RESERVED_HEADER_SPACE;
         ppos_ := RESERVED_HEADER_SPACE |}.

(** [StreamBuffer(const char * buf, size_t size)] *)
Definition StreamBuffer_borrowed (buf : N) (size : Z) : M StreamBuffer :=
  ret {| buf_ := buf; const_buf_ := true; pend_ := size;
         gpos_ := 0; ppos_ := size |}.

(** [~StreamBuffer()] *)
Definition StreamBuffer_destroy (this : StreamBuffer) : M unit :=
  if negb (const_buf_ this) then free (buf_ this) else ret tt.

(** [swap], one [std::swap] per line as in the source. *)
Definition swap (this rhs : StreamBuffer) : StreamBuffer * StreamBuffer :=
  let '(this, rhs) :=
    (set_const_buf_ (const_buf_ rhs) this, set_const_buf_ (const_buf_ this) rhs) in
  let '(this, rhs) :=
    (set_buf_ (buf_ rhs) this, set_buf_ (buf_ this) rhs) in
  let '(this, rhs) :=
    (set_pend_ (pend_ rhs) this, set_pend_ (pend_ this) rhs) in
  let '(this, rhs) :=
    (set_gpos_ (ppos_ rhs) this, set_ppos_ (gpos_ this) rhs) in
  let '(this, rhs) :=
    (set_ppos_ (ppos_ rhs) this, set_ppos_ (ppos_ this) rhs) in
  (this, rhs).

Definition get_buf (this : StreamBuffer) : M (N * StreamBuffer) :=
  ret (buf_ this, this).

Definition set_buf (buf : N) (size : Z) (this : StreamBuffer) : M StreamBuffer :=
  let this := set_const_buf_ true this in
  let this := set_buf_ buf this in
  let this := set_ppos_ size this in
  let this := set_gpos_ 0 this in
  let this := set_pend_ size this in
  ret this.

Definition get_size (this : StreamBuffer) : M (Z * StreamBuffer) :=
  ret (SizeT.sub (ppos_ this) (gpos_ this), this).

Definition write (al : allocator) (buf : list byte) (size : Z)
    (this : StreamBuffer) : M StreamBuffer :=
  ASSERT (negb (const_buf_ this)) "writing into a const buffer is not allowed." ;;
  let new_size := SizeT.add size (ppos_ this) in
  this <- (if pend_ this <? new_size
           then
             LOG "buffer is full, reallocating." ;;
             let new_size := SizeT.max new_size (SizeT.add (ppos_ this) GROW_SIZE) in
             new_buf <- realloc al (buf_ this) new_size ;;
             ASSERT (negb (new_buf =? NULL)%N) "realloc failed" ;;
             ret (set_pend_ new_size (set_buf_ new_buf this))
           else ret this) ;;
  memcpy_in (buf_ this) (ppos_ this) buf size ;;
  ret (set_ppos_ (SizeT.add (ppos_ this) size) this).

(** [read], with the compile-time constant [SHRINK_WITH_GET] as a
    parameter so that both settings can be talked about. *)
Definition read_with (shrink : bool) (al : allocator) (size : Z)
    (this : StreamBuffer) : M (list byte * StreamBuffer) :=
  ASSERT (SizeT.add (gpos_ this) size <=? ppos_ this) "reading beyond the array" ;;
  out <- peek (buf_ this) (gpos_ this) size ;;
  let this := set_gpos_ (SizeT.add (gpos_ this) size) this in
  if (GROW_SIZE <? gpos_ this) && shrink && negb (const_buf_ this)
  then
    memcpy (buf_ this) 0 (buf_ this) (gpos_ this)
           (SizeT.sub (ppos_ this) (gpos_ this)) ;;
    new_buf <- realloc al (buf_ this) (SizeT.sub (pend_ this) (gpos_ this)) ;;
    ASSERT (negb (new_buf =? NULL)%N) "realloc failed" ;;
    let this := set_buf_ new_buf this in
    let this := set_pend_ (SizeT.sub (pend_ this) (gpos_ this)) this in
    let this := set_ppos_ (SizeT.sub (ppos_ this) (gpos_ this)) this in
    let this := set_gpos_ 0 this in
    ret (out, this)
  else ret (out, this).

Definition read : allocator -> Z -> StreamBuffer -> M (list byte * StreamBuffer) :=
  read_with SHRINK_WITH_GET.

(** The two sizes [write_head] computes on its reallocation path. *)
Definition head_new_size (size : Z) (this : StreamBuffer) : Z :=
  SizeT.max (SizeT.add size (ppos_ this))
            (SizeT.add (ppos_ this) RESERVED_HEADER_SPACE).

Definition head_new_gpos (size : Z) (this : StreamBuffer) : Z :=
  SizeT.sub (head_new_size size this) (SizeT.sub (ppos_ this) (gpos_ this)).

Definition write_head (al : allocator) (buf : list byte) (size : Z)
    (this : StreamBuffer) : M StreamBuffer :=
  ASSERT (negb (const_buf_ this)) "writing into a const buffer is not allowed." ;;
  this <- (if gpos_ this <? size
           then
             WARN "reallocating due to write_head, possible performance loss." ;;
             let new_size := head_new_size size this in
             new_buf <- malloc al new_size ;;
             ASSERT (negb (new_buf =? NULL)%N) "realloc failed" ;;
             let new_gpos := head_new_gpos size this in
             memcpy new_buf new_gpos (buf_ this) (gpos_ this)
                    (SizeT.sub (ppos_ this) (gpos_ this)) ;;
             free (buf_ this) ;;
             let this := set_buf_ new_buf this in
             let this := set_gpos_ new_gpos this in
             let this := set_pend_ new_size (set_ppos_ new_size this) in
             ret this
           else ret this) ;;
  let this := set_gpos_ (SizeT.sub (gpos_ this) size) this in
  memcpy_in (buf_ this) (gpos_ this) buf size ;;
  ret this.

(** ** Invariants and content *)

(** Every block is an object of the address space. *)
Definition heap_ok (h : heap) : Prop :=
  forall q blk, h !! q = Some blk -> zlen blk <= SizeT.PTRDIFF_MAX.

(** The order of the three offsets. *)
Definition ordered (b : StreamBuffer) : Prop :=
  gpos_ b <= ppos_ b /\ ppos_ b <= pend_ b.

(** [buf_] points to a live block; an owned block is exactly [pend_] bytes
    long, a borrowed one has at least the [size] bytes it was bound with. *)
Definition backed (h : heap) (b : StreamBuffer) : Prop :=
  exists blk, deref h (buf_ b) = Some blk /\
    if const_buf_ b then pend_ b <= zlen blk else zlen blk = pend_ b.

Record wf (h : heap) (b : StreamBuffer) : Prop := {
  wf_heap : heap_ok h;
  wf_gpos : 0 <= gpos_ b;
  wf_ordered : ordered b;
  wf_backed : backed h b
}.

(** The bytes of the storage region and the logical content
    [[gpos_, ppos_)]. *)
Definition region (h : heap) (b : StreamBuffer) : list byte :=
  default [] (deref h (buf_ b)).

Definition content (h : heap) (b : StreamBuffer) : list byte :=
  take (Z.to_nat (ppos_ b - gpos_ b)) (drop (Z.to_nat (gpos_ b)) (region h b)).

(** ** Sequences of calls *)

Fixpoint write_all (al : allocator) (ws : list (list byte))
    (this : StreamBuffer) : M StreamBuffer :=
  match ws with
  | [] => ret this
  | d :: ws' => this <- write al d (zlen d) this ;; write_all al ws' this
  end.

Fixpoint read_all (al : allocator) (rs : list nat)
    (this : StreamBuffer) : M (list (list byte) * StreamBuffer) :=
  match rs with
  | [] => ret ([], this)
  | n :: rs' =>
      r <- read al (Z.of_nat n) this ;;
      r' <- read_all al rs' (snd r) ;;
      ret (fst r :: fst r', snd r')
  end.

(** The total length of a sequence of read requests. *)
Definition total (rs : list nat) : nat := foldr Nat.add 0%nat rs.

(** The sizes the two reallocation branches ask for, as integers. *)
Definition grown (b : StreamBuffer) (n : Z) : Z :=
  Z.max (ppos_ b + n) (ppos_ b + GROW_SIZE).

Definition head_grown (b : StreamBuffer) (n : Z) : Z :=
  Z.max (n + ppos_ b) (ppos_ b + RESERVED_HEADER_SPACE).

(** ** Two instances and the calls between them *)

Inductive side : Type := Lhs | Rhs.

Record world : Type := {
  store : heap;
  obj_a : StreamBuffer;
  obj_b : StreamBuffer
}.

Definition pick (s : side) (w : world) : StreamBuffer :=
  match s with Lhs => obj_a w | Rhs => obj_b w end.

Definition put (s : side) (b : StreamBuffer) (h : heap) (w : world) : world :=
  match s with
  | Lhs => {| store := h; obj_a := b; obj_b := obj_b w |}
  | Rhs => {| store := h; obj_a := obj_a w; obj_b := b |}
  end.

Inductive call : Type :=
| Write (s : side) (data : list byte)
| Read (s : side) (n : Z)
| WriteHead (s : side) (data : list byte)
| Swap (s : side)
| SetBuf (s : side) (buf : N) (size : Z)
| GetSize (s : side).

(** A region handed to [StreamBuffer(buf, size)] or [set_buf] really has
    [size] bytes. *)
Definition region_ok (h : heap) (buf : N) (size : Z) : bool :=
  match deref h buf with
  | Some blk => (0 <=? size) && (size <=? zlen blk)
  | None => false
  end.

(** One successful call; [None] when the call does not return. *)
Definition step (al : allocator) (c : call) (w : world) : option world :=
  match c with
  | Write s data =>
      match write al data (zlen data) (pick s w) (store w) with
      | Done b h => Some (put s b h w)
      | _ => None
      end
  | Read s n =>
      match read al n (pick s w) (store w) with
      | Done (_, b) h => Some (put s b h w)
      | _ => None
      end
  | WriteHead s data =>
      match write_head al data (zlen data) (pick s w) (store w) with
      | Done b h => Some (put s b h w)
      | _ => None
      end
  | Swap Lhs =>
      let '(a, b) := swap (obj_a w) (obj_b w) in
      Some {| store := store w; obj_a := a; obj_b := b |}
  | Swap Rhs =>
      let '(b, a) := swap (obj_b w) (obj_a w) in
      Some {| store := store w; obj_a := a; obj_b := b |}
  | SetBuf s buf size =>
      if region_ok (store w) buf size
      then match set_buf buf size (pick s w) (store w) with
           | Done b h => Some (put s b h w)
           | _ => None
           end
      else None
  | GetSize s =>
      match get_size (pick s w) (store w) with
      | Done (_, b) h => Some (put s b h w)
      | _ => None
      end
  end.

Inductive constructed (al : allocator) : heap -> StreamBuffer -> heap -> Prop :=
| ctor_owned h b h' :
    StreamBuffer_owned al h = Done b h' -> buf_ b <> NULL ->
    constructed al h b h'
| ctor_borrowed h buf size b :
    region_ok h buf size = true ->
    StreamBuffer_borrowed buf size h = Done b h ->
    constructed al h b h.

Inductive reachable (al : allocator) : world -> Prop :=
| reach_init h0 a h1 b h2 :
    heap_ok h0 -> constructed al h0 a h1 -> constructed al h1 b h2 ->
    reachable al {| store := h2; obj_a := a; obj_b := b |}
| reach_step c w w' :
    reachable al w -> step al c w = Some w' -> reachable al w'.

(** ** Sample data *)

(** An allocator that never turns a request down, always moves a
    reallocated block, and hands out zeroed memory. *)
Definition al_plain : allocator :=
  {| refuses := fun _ _ => false;
     moves := fun _ _ _ => true;
     junk := fun _ _ => x00 |}.

Definition ten_bytes : list byte :=
  [x01; x02; x03; x04; x05; x06; x07; x08; x09; x0a].

(** The caller's memory holds one ten-byte array at address 1. *)
Definition heap0 : heap := {[ 1%positive := ten_bytes ]}.

Definition heap1 : heap := <[ 2%positive := repeat x00 128 ]> heap0.

(** What [StreamBuffer()] returns on [heap0] ... *)
Definition owned0 : StreamBuffer :=
  {| buf_ := 2; const_buf_ := false; pend_ := 128; gpos_ := 64; ppos_ := 64 |}.

(** ... and [StreamBuffer(buf, 10)] on the caller's array. *)
Definition view0 : StreamBuffer :=
  {| buf_ := 1; const_buf_ := true; pend_ := 10; gpos_ := 0; ppos_ := 10 |}.

(** Sample states: the fresh buffer after one byte was written. *)
Definition heap2 : heap :=
  <[ 2%positive := repeat x00 64 ++ [x01] ++ repeat x00 63 ]> heap0.

Definition owned1 : StreamBuffer :=
  {| buf_ := 2; const_buf_ := false; pend_ := 128; gpos_ := 64; ppos_ := 65 |}.

(** Sample states: the fresh buffer after one byte was prepended. *)
Definition heap5 : heap :=
  <[ 2%positive := repeat x00 63 ++ [x01] ++ repeat x00 64 ]> heap0.

Definition owned5 : StreamBuffer :=
  {| buf_ := 2; const_buf_ := false; pend_ := 128; gpos_ := 63; ppos_ := 64 |}.

(** Sample states: one body byte written, then a header of 100 bytes,
    which does not fit the margin of 64. *)
Definition heap3 : heap :=
  <[ 2%positive := repeat x00 64 ++ [x0a] ++ repeat x00 63 ]> heap0.

Definition owned3 : StreamBuffer :=
  {| buf_ := 2; const_buf_ := false; pend_ := 128; gpos_ := 64; ppos_ := 65 |}.

Definition heap4 : heap :=
  <[ 3%positive := repeat x00 64 ++ repeat x07 100 ++ [x0a] ]> heap0.

Definition owned4 : StreamBuffer :=
  {| buf_ := 3; const_buf_ := false; pend_ := 165; gpos_ := 64; ppos_ := 165 |}.

(** ** Where a call leaves the buffer *)

(** The block a growing [write] ends up in, and the rest of the heap around
    it: [realloc] either moves the block to a fresh address or resizes it
    where it is. *)
Definition grown_at (al : allocator) (h : heap) (q : positive) (n : Z) : positive :=
  if moves al h q n then fresh_block h else q.

Definition grown_around (al : allocator) (h : heap) (q : positive) (n : Z) : heap :=
  if moves al h q n then delete q h else h.

(** The margin left in front of the data once [write_head] has taken its
    reallocation branch for [n] header bytes. *)
Definition head_margin (b : StreamBuffer) (n : Z) : Z :=
  Z.max (gpos_ b) (gpos_ b + RESERVED_HEADER_SPACE - n).

(** ** The buffer as a double-ended queue *)

(** The calls of one instance that move bytes in or out. *)
Definition queue_call (c : call) : bool :=
  match c with
  | Write Lhs _ | Read Lhs _ | WriteHead Lhs _ | GetSize Lhs => true
  | _ => false
  end.

(** What such a call does to the sequence of unread bytes. *)
Definition deque_step (c : call) (xs : list byte) : option (list byte) :=
  match c with
  | Write Lhs d => Some (xs ++ d)
  | WriteHead Lhs d => Some (d ++ xs)
  | Read Lhs n =>
      if (0 <=? n) && (n <=? zlen xs) then Some (drop (Z.to_nat n) xs) else None
  | GetSize Lhs => Some xs
  | _ => None
  end.

Fixpoint run (al : allocator) (cs : list call) (w : world) : option world :=
  match cs with
  | [] => Some w
  | c :: cs' =>
      match step al c w with
      | Some w' => run al cs' w'
      | None => None
      end
  end.

Fixpoint deque_run (cs : list call) (xs : list byte) : option (list byte) :=
  match cs with
  | [] => Some xs
  | c :: cs' =>
      match deque_step c xs with
      | Some xs' => deque_run cs' xs'
      | None => None
      end
  end.

(** * Lemmas *)

Module SizeTFacts.

Import SizeT.

Lemma add_exact a b : 0 <= a -> 0 <= b -> a + b < modulus -> add a b = a + b.
Proof. intros. unfold add. apply Z.mod_small. lia. Qed.

Lemma sub_exact a b : 0 <= b <= a -> a < modulus -> sub a b = a - b.
Proof. intros. unfold sub. apply Z.mod_small. lia. Qed.

Lemma max_spec a b : max a b = Z.max a b.
Proof. unfold max. destruct (Z.ltb_spec a b); lia. Qed.

Lemma add_in_range a b : in_range (add a b).
Proof. unfold in_range, add. apply Z.mod_pos_bound. reflexivity. Qed.

Lemma add_comm a b : add a b = add b a.
Proof. unfold add. rewrite Z.add_comm. reflexivity. Qed.

End SizeTFacts.

(** ** Running the primitives *)

Lemma bind_Done {A B} (m : M A) (k : A -> M B) h b h' :
  bind m k h = Done b h' <->
  exists a h1, m h = Done a h1 /\ k a h1 = Done b h'.
Proof.
  unfold bind. split.
  - destruct (m h) as [a h1| |]; [eauto|discriminate..].
  - intros (a & h1 & -> & Hk). exact Hk.
Qed.

Lemma ASSERT_Done c msg h u h' :
  ASSERT c msg h = Done u h' <-> c = true /\ h' = h.
Proof.
  unfold ASSERT. destruct c; split.
  - intros [= _ ->]. auto.
  - intros [_ ->]. destruct u. reflexivity.
  - discriminate.
  - intros [? _]. discriminate.
Qed.

Ltac split_checks E :=
  repeat match type of E with
  | (_ && _)%bool = true =>
      let E' := fresh E in apply andb_true_iff in E as [E E']; split_checks E'
  end;
  rewrite ?Z.leb_le, ?Z.ltb_lt in *.

Ltac failed_checks E :=
  rewrite ?andb_false_iff, ?Z.leb_gt, ?Z.ltb_ge in E.

Lemma from_caller_Done buf size h d h' :
  from_caller buf size h = Done d h' <->
  0 <= size <= zlen buf /\ d = take (Z.to_nat size) buf /\ h' = h.
Proof.
  unfold from_caller, ret, undefined.
  destruct ((0 <=? size) && (size <=? zlen buf)) eqn:E.
  - split_checks E. split.
    + intros [= <- <-]. auto.
    + intros (_ & -> & ->). reflexivity.
  - failed_checks E. split; [discriminate|]. intros [? _]. lia.
Qed.

Lemma from_caller_all buf h : from_caller buf (zlen buf) h = Done buf h.
Proof.
  apply from_caller_Done. unfold zlen. rewrite Nat2Z.id, firstn_all.
  repeat split; lia.
Qed.

Lemma peek_Done p off n h d h' :
  peek p off n h = Done d h' <->
  exists blk, deref h p = Some blk /\ 0 <= off /\ 0 <= n /\ off + n <= zlen blk /\
    d = take (Z.to_nat n) (drop (Z.to_nat off) blk) /\ h' = h.
Proof.
  unfold peek. destruct (deref h p) as [blk|];
    [|split; [discriminate | intros (blk & ? & _); discriminate]].
  destruct ((0 <=? off) && (0 <=? n) && (off + n <=? zlen blk)) eqn:E.
  - split_checks E. split.
    + intros [= <- <-]. exists blk. auto 10.
    + intros (blk' & [= <-] & _ & _ & _ & -> & ->). reflexivity.
  - failed_checks E. split; [discriminate|].
    intros (blk' & [= <-] & ? & ? & ? & _). lia.
Qed.

Lemma poke_Done p off data h u h' :
  poke p off data h = Done u h' <->
  exists q blk, p = Npos q /\ h !! q = Some blk /\ 0 <= off /\
    off + zlen data <= zlen blk /\ h' = <[q := splice blk off data]> h.
Proof.
  unfold poke. destruct p as [|q];
    [split; [discriminate | intros (q & blk & ? & _); discriminate]|].
  destruct (h !! q) as [blk|] eqn:Hq;
    [|split; [discriminate|];
      intros (q' & blk' & [= <-] & Hq' & _); rewrite Hq in Hq'; discriminate].
  destruct ((0 <=? off) && (off + zlen data <=? zlen blk)) eqn:E.
  - split_checks E. split.
    + intros [= <-]. exists q, blk. auto.
    + intros (q' & blk' & [= <-] & Hq' & _ & _ & ->). rewrite Hq in Hq'.
      injection Hq' as <-. destruct u. reflexivity.
  - failed_checks E. split; [discriminate|].
    intros (q' & blk' & [= <-] & Hq' & ? & ? & _). rewrite Hq in Hq'.
    injection Hq' as <-. lia.
Qed.

Lemma length_fresh_bytes al h from n : length (fresh_bytes al h from n) = n.
Proof. unfold fresh_bytes. rewrite length_map, length_seq. reflexivity. Qed.


Lemma zlen_nonneg l : 0 <= zlen l.
Proof. unfold zlen. lia. Qed.

Lemma zlen_splice blk off data :
  0 <= off -> off + zlen data <= zlen blk -> zlen (splice blk off data) = zlen blk.
Proof.
  unfold splice, zlen. intros.
  rewrite !length_app, length_take, length_drop. lia.
Qed.

Lemma zlen_resized al h old n : 0 <= n -> zlen (resized al h old n) = n.
Proof.
  unfold resized, zlen. intros.
  rewrite length_app, length_take, length_fresh_bytes. lia.
Qed.

Lemma fresh_block_free (h : heap) : h !! fresh_block h = None.
Proof. apply not_elem_of_dom. unfold fresh_block. apply is_fresh. Qed.

Lemma bind_step {A B} (m : M A) (k : A -> M B) h a h1 :
  m h = Done a h1 -> bind m k h = k a h1.
Proof. unfold bind. intros ->. reflexivity. Qed.

Lemma peek_ok p off n h blk :
  deref h p = Some blk -> 0 <= off -> 0 <= n -> off + n <= zlen blk ->
  peek p off n h = Done (take (Z.to_nat n) (drop (Z.to_nat off) blk)) h.
Proof. intros. apply peek_Done. exists blk. auto 10. Qed.

Lemma poke_ok q off data h blk :
  h !! q = Some blk -> 0 <= off -> off + zlen data <= zlen blk ->
  poke (Npos q) off data h = Done tt (<[q := splice blk off data]> h).
Proof. intros. apply poke_Done. exists q, blk. auto 10. Qed.

Lemma memcpy_in_ok q off data h blk :
  h !! q = Some blk -> 0 <= off -> off + zlen data <= zlen blk ->
  memcpy_in (Npos q) off data (zlen data) h =
  Done tt (<[q := splice blk off data]> h).
Proof.
  intros. unfold memcpy_in.
  rewrite (bind_step _ _ _ _ _ (from_caller_all data h)).
  apply poke_ok; assumption.
Qed.

(** ** [read] *)

Lemma read_unfold al size this :
  read al size this =
  (ASSERT (SizeT.add (gpos_ this) size <=? ppos_ this) "reading beyond the array" ;;
   out <- peek (buf_ this) (gpos_ this) size ;;
   ret (out, set_gpos_ (SizeT.add (gpos_ this) size) this)).
Proof.
  unfold read, read_with, SHRINK_WITH_GET.
  rewrite andb_false_r. reflexivity.
Qed.

Lemma read_Done_inv al n b h out b' h' :
  read al n b h = Done (out, b') h' ->
  exists blk, deref h (buf_ b) = Some blk /\
    0 <= gpos_ b /\ 0 <= n /\ gpos_ b + n <= zlen blk /\
    SizeT.add (gpos_ b) n <= ppos_ b /\
    out = take (Z.to_nat n) (drop (Z.to_nat (gpos_ b)) blk) /\
    h' = h /\ b' = set_gpos_ (SizeT.add (gpos_ b) n) b.
Proof.
  rewrite read_unfold. intros H.
  apply bind_Done in H as ([] & h1 & Ha & H).
  apply ASSERT_Done in Ha as [Ha ->]. apply Z.leb_le in Ha.
  apply bind_Done in H as (d & h2 & Hp & H).
  apply peek_Done in Hp as (blk & Hblk & ? & ? & ? & -> & ->).
  injection H as <- <- <-. exists blk. auto 10.
Qed.

Lemma read_ok al n b h :
  wf h b -> 0 <= n -> gpos_ b + n <= ppos_ b ->
  read al n b h =
  Done (take (Z.to_nat n) (drop (Z.to_nat (gpos_ b)) (region h b)),
        set_gpos_ (gpos_ b + n) b) h.
Proof.
  intros [Hh Hg [Ho1 Ho2] (blk & Hblk & Hlen)] Hn Hle.
  assert (zlen blk <= SizeT.PTRDIFF_MAX) as Hmax.
  { destruct (buf_ b) as [|q]; [discriminate|]. exact (Hh q blk Hblk). }
  assert (pend_ b <= zlen blk) as Hpend by (destruct (const_buf_ b); lia).
  assert (SizeT.add (gpos_ b) n = gpos_ b + n) as Hadd.
  { apply SizeTFacts.add_exact; try lia. unfold SizeT.PTRDIFF_MAX, SizeT.modulus in *. lia. }
  rewrite read_unfold, Hadd. unfold region. rewrite Hblk. simpl.
  rewrite (proj2 (Z.leb_le _ _) Hle).
  rewrite (bind_step _ _ _ _ _ (eq_refl : ASSERT true _ h = Done tt h)).
  rewrite (bind_step _ _ _ _ _ (peek_ok _ _ _ _ _ Hblk Hg Hn ltac:(lia))).
  reflexivity.
Qed.

Lemma read_beyond al n b h :
  0 <= gpos_ b -> 0 <= n -> gpos_ b + n < SizeT.modulus ->
  ppos_ b < gpos_ b + n ->
  read al n b h = Fatal "reading beyond the array" h.
Proof.
  intros Hg Hn Hm Hlt. rewrite read_unfold. unfold bind, ASSERT.
  rewrite SizeTFacts.add_exact by lia.
  destruct (Z.leb_spec (gpos_ b + n) (ppos_ b)); [lia|]. reflexivity.
Qed.

Lemma swap_fields this rhs :
  swap this rhs =
  ({| buf_ := buf_ rhs; const_buf_ := const_buf_ rhs; pend_ := pend_ rhs;
      gpos_ := ppos_ rhs; ppos_ := gpos_ this |},
   {| buf_ := buf_ this; const_buf_ := const_buf_ this; pend_ := pend_ this;
      gpos_ := gpos_ rhs; ppos_ := ppos_ this |}).
Proof. reflexivity. Qed.

(** ** The allocator keeps the heap well formed *)

Lemma heap_ok_empty : heap_ok ∅.
Proof. intros q blk H. rewrite lookup_empty in H. discriminate. Qed.

Lemma heap_ok_insert h q blk :
  heap_ok h -> zlen blk <= SizeT.PTRDIFF_MAX -> heap_ok (<[q := blk]> h).
Proof.
  intros Hh Hb q' blk' H. destruct (decide (q = q')) as [<-|Hne].
  - rewrite lookup_insert_eq in H. injection H as <-. exact Hb.
  - rewrite lookup_insert_ne in H by exact Hne. exact (Hh _ _ H).
Qed.

Lemma heap_ok_delete h q : heap_ok h -> heap_ok (delete q h).
Proof.
  intros Hh q' blk' H. destruct (decide (q = q')) as [<-|Hne].
  - rewrite lookup_delete_eq in H. discriminate.
  - rewrite lookup_delete_ne in H by exact Hne. exact (Hh _ _ H).
Qed.

Lemma grants_true al h n :
  grants al h n = true <-> refuses al h n = false /\ n <= SizeT.PTRDIFF_MAX.
Proof.
  unfold grants. rewrite andb_true_iff, negb_true_iff, Z.leb_le. reflexivity.
Qed.

Lemma malloc_Done al n h p h' :
  malloc al n h = Done p h' ->
  (grants al h n = false /\ p = NULL /\ h' = h) \/
  (grants al h n = true /\ p = Npos (fresh_block h) /\
   h' = <[fresh_block h := fresh_bytes al h 0 (Z.to_nat n)]> h).
Proof.
  unfold malloc. destruct (grants al h n); intros [= <- <-]; auto.
Qed.

(** A successful [realloc] leaves the old bytes in front of the new block,
    wherever that block now lives. *)
Lemma realloc_Done al q n h p h' :
  0 <= n ->
  realloc al (Npos q) n h = Done p h' ->
  exists old, h !! q = Some old /\
    ((grants al h n = false /\ p = NULL /\ h' = h) \/
     (grants al h n = true /\ exists q', p = Npos q' /\
        h' !! q' = Some (resized al h old n) /\
        (heap_ok h -> heap_ok h'))).
Proof.
  intros Hn. unfold realloc. destruct (h !! q) as [old|] eqn:Hq; [|discriminate].
  intros H. exists old. split; [reflexivity|].
  destruct (grants al h n) eqn:Hg.
  - right. split; [reflexivity|].
    assert (zlen (resized al h old n) <= SizeT.PTRDIFF_MAX) as Hlen.
    { rewrite zlen_resized by exact Hn. apply grants_true in Hg. tauto. }
    destruct (moves al h q n); injection H as <- <-.
    + exists (fresh_block h). split; [reflexivity|]. split.
      * apply lookup_insert_eq.
      * intros Hh. apply heap_ok_insert; [apply heap_ok_delete|]; assumption.
    + exists q. split; [reflexivity|]. split.
      * apply lookup_insert_eq.
      * intros Hh. apply heap_ok_insert; assumption.
  - left. injection H as <- <-. auto.
Qed.

(** ** Regions as lists *)

Lemma take_splice blk off data :
  0 <= off -> off + zlen data <= zlen blk ->
  take (Z.to_nat (off + zlen data)) (splice blk off data) =
  take (Z.to_nat off) blk ++ data.
Proof.
  unfold splice, zlen. intros Hoff Hlen.
  rewrite app_assoc. apply take_app_length'.
  rewrite length_app, length_take. lia.
Qed.

Lemma take_resized al h old n k :
  (k <= length old)%nat -> (k <= Z.to_nat n)%nat ->
  take k (resized al h old n) = take k old.
Proof.
  unfold resized. intros Hk Hn.
  rewrite take_app_le by (rewrite length_take; lia).
  rewrite take_take. f_equal. lia.
Qed.


Ltac fields :=
  cbn [buf_ const_buf_ pend_ gpos_ ppos_
       set_buf_ set_const_buf_ set_pend_ set_gpos_ set_ppos_] in *.

Ltac szlia :=
  unfold SizeT.in_range, SizeT.PTRDIFF_MAX, SizeT.SIZE_MAX, SizeT.modulus,
    GROW_SIZE, RESERVED_HEADER_SPACE in *;
  lia.

(** ** [write] *)

Lemma wf_block h b :
  wf h b -> exists q blk, buf_ b = Npos q /\ h !! q = Some blk /\
    pend_ b <= zlen blk <= SizeT.PTRDIFF_MAX /\
    (const_buf_ b = false -> zlen blk = pend_ b).
Proof.
  intros [Hh _ _ (blk & Hblk & Hlen)].
  destruct (buf_ b) as [|q] eqn:Hq; [discriminate|]. simpl in Hblk.
  exists q, blk. pose proof (Hh q blk Hblk).
  destruct (const_buf_ b); repeat split; try lia; congruence.
Qed.

Lemma write_Done_inv al data b h b' h' :
  wf h b -> write al data (zlen data) b h = Done b' h' ->
  const_buf_ b = false /\ wf h' b' /\ const_buf_ b' = false /\
  gpos_ b' = gpos_ b /\ ppos_ b' = ppos_ b + zlen data /\
  pend_ b' = (if ppos_ b + zlen data <=? pend_ b then pend_ b
              else grown b (zlen data)) /\
  (ppos_ b + zlen data <= pend_ b \/ grants al h (grown b (zlen data)) = true) /\
  take (Z.to_nat (ppos_ b + zlen data)) (region h' b') =
    take (Z.to_nat (ppos_ b)) (region h b) ++ data.
Proof.
  intros Hwf H.
  destruct (wf_block h b Hwf) as (q & blk & Hq & Hblk & Hlen & Hown).
  destruct Hwf as [Hh Hg [Ho1 Ho2] _].
  pose proof (zlen_nonneg data) as Hn.
  unfold write in H.
  apply bind_Done in H as ([] & h0 & Ha & H).
  apply ASSERT_Done in Ha as [Hc ->]. apply negb_true_iff in Hc.
  specialize (Hown Hc).
  apply bind_Done in H as (b1 & h1 & Hgrow & H).
  apply bind_Done in H as ([] & h2 & Hcp & H).
  injection H as <- <-.
  unfold memcpy_in in Hcp.
  rewrite (bind_step _ _ _ _ _ (from_caller_all data h1)) in Hcp.
  apply poke_Done in Hcp as (q1 & blk1 & Hq1 & Hblk1 & _ & Hfit & ->).
  pose proof (SizeTFacts.add_in_range (zlen data) (ppos_ b)) as Hs.
  destruct (Z.ltb_spec (pend_ b) (SizeT.add (zlen data) (ppos_ b))) as [Hbig|Hsmall].
  - (* the reallocation branch *)
    apply bind_Done in Hgrow as ([] & h3 & Hlog & Hgrow). injection Hlog as <-.
    apply bind_Done in Hgrow as (p & h4 & Hre & Hgrow).
    apply bind_Done in Hgrow as ([] & h5 & Ha & Hgrow).
    apply ASSERT_Done in Ha as [Hp ->]. injection Hgrow as <- <-.
    apply negb_true_iff, N.eqb_neq in Hp.
    set (ns := SizeT.max (SizeT.add (zlen data) (ppos_ b))
                         (SizeT.add (ppos_ b) GROW_SIZE)) in *.
    assert (0 <= ns < SizeT.modulus) as Hns.
    { subst ns. rewrite SizeTFacts.max_spec.
      pose proof (SizeTFacts.add_in_range (ppos_ b) GROW_SIZE).
      unfold SizeT.in_range in *. lia. }
    rewrite Hq in Hre.
    apply realloc_Done in Hre as (old & Hold & [(_ & -> & _)|(Hgr & q' & -> & Hnew & Hok)]);
      [| |lia]; [congruence|].
    rewrite Hblk in Hold. injection Hold as <-.
    simpl in Hq1, Hfit. injection Hq1 as <-.
    rewrite Hnew in Hblk1. injection Hblk1 as <-.
    rewrite zlen_resized in Hfit by lia.
    assert (ns <= SizeT.PTRDIFF_MAX) as Hmax by (apply grants_true in Hgr; tauto).
    assert (SizeT.add (zlen data) (ppos_ b) = ppos_ b + zlen data) as Hsum.
    { rewrite Z.add_comm. apply SizeTFacts.add_exact; szlia. }
    assert (SizeT.add (ppos_ b) GROW_SIZE = ppos_ b + GROW_SIZE) as Hsum'.
    { apply SizeTFacts.add_exact; szlia. }
    assert (ns = grown b (zlen data)) as Hnsg.
    { subst ns. rewrite SizeTFacts.max_spec, Hsum, Hsum'. reflexivity. }
    rewrite Hsum in Hbig.
    assert (zlen (splice (resized al h blk ns) (ppos_ b) data) = ns) as Hlen'.
    { rewrite zlen_splice, zlen_resized; rewrite ?zlen_resized; lia. }
    split; [exact Hc|]. split; [|split; [exact Hc|]].
    { constructor; simpl.
      - apply heap_ok_insert; [auto|]. lia.
      - exact Hg.
      - unfold ordered. simpl. rewrite (SizeTFacts.add_comm (ppos_ b)), Hsum. lia.
      - exists (splice (resized al h blk ns) (ppos_ b) data). simpl.
        rewrite lookup_insert_eq, Hc. auto. }
    simpl. rewrite (SizeTFacts.add_comm (ppos_ b)), Hsum.
    split; [reflexivity|]. split; [reflexivity|]. split.
    { destruct (Z.leb_spec (ppos_ b + zlen data) (pend_ b)); [lia|exact Hnsg]. }
    split; [right; rewrite <- Hnsg; exact Hgr|].
    unfold region. simpl. rewrite lookup_insert_eq, Hq. simpl. rewrite Hblk. simpl.
    rewrite take_splice by (rewrite ?zlen_resized; lia).
    f_equal. apply take_resized; unfold zlen in *; lia.
  - (* enough room *)
    injection Hgrow as <- <-.
    rewrite Hq in Hq1. injection Hq1 as <-.
    rewrite Hblk in Hblk1. injection Hblk1 as <-.
    assert (SizeT.add (zlen data) (ppos_ b) = ppos_ b + zlen data) as Hsum.
    { rewrite Z.add_comm. apply SizeTFacts.add_exact; szlia. }
    assert (zlen (splice blk (ppos_ b) data) = zlen blk) as Hlen'.
    { apply zlen_splice; lia. }
    split; [exact Hc|]. split; [|split; [exact Hc|]].
    { constructor; simpl.
      - apply heap_ok_insert; [auto|]. lia.
      - exact Hg.
      - unfold ordered. simpl. rewrite (SizeTFacts.add_comm (ppos_ b)), Hsum. lia.
      - exists (splice blk (ppos_ b) data). simpl. rewrite Hq. simpl.
        rewrite lookup_insert_eq, Hc. split; [reflexivity|lia]. }
    simpl. rewrite (SizeTFacts.add_comm (ppos_ b)), Hsum.
    split; [reflexivity|]. split; [reflexivity|]. split.
    { destruct (Z.leb_spec (ppos_ b + zlen data) (pend_ b)); [reflexivity|lia]. }
    split; [left; lia|].
    unfold region. simpl. rewrite Hq. simpl. rewrite lookup_insert_eq, Hblk. simpl.
    apply take_splice; lia.
Qed.

Lemma realloc_granted al q n h old :
  h !! q = Some old -> grants al h n = true ->
  exists q' h', realloc al (Npos q) n h = Done (Npos q') h' /\
    h' !! q' = Some (resized al h old n).
Proof.
  intros Hq Hg. unfold realloc. rewrite Hq, Hg.
  destruct (moves al h q n); eexists _, _; (split; [reflexivity|]);
    apply lookup_insert_eq.
Qed.

(** [write] returns whenever the bytes fit or the allocator grants the
    larger block. *)
Lemma write_total al data b h :
  wf h b -> const_buf_ b = false ->
  ppos_ b + zlen data <= pend_ b \/ grants al h (grown b (zlen data)) = true ->
  exists b' h', write al data (zlen data) b h = Done b' h'.
Proof.
  intros Hwf Hc Hroom.
  destruct (wf_block h b Hwf) as (q & blk & Hq & Hblk & Hlen & Hown).
  destruct Hwf as [Hh Hg [Ho1 Ho2] _]. specialize (Hown Hc).
  pose proof (zlen_nonneg data) as Hn.
  assert (ppos_ b + zlen data <= SizeT.PTRDIFF_MAX) as Hsmall.
  { destruct Hroom as [|Hgr]; [lia|].
    apply grants_true in Hgr as [_ Hgr]. unfold grown in Hgr. lia. }
  assert (SizeT.add (zlen data) (ppos_ b) = ppos_ b + zlen data) as Hsum.
  { rewrite SizeTFacts.add_comm. apply SizeTFacts.add_exact; szlia. }
  unfold write. rewrite Hc, Hsum. unfold bind, ASSERT, LOG, ret. simpl negb.
  destruct (Z.ltb_spec (pend_ b) (ppos_ b + zlen data)) as [Hbig|Hfit].
  - destruct Hroom as [|Hgr]; [lia|].
    assert (SizeT.max (ppos_ b + zlen data) (SizeT.add (ppos_ b) GROW_SIZE)
            = grown b (zlen data)) as Hns.
    { rewrite SizeTFacts.max_spec, SizeTFacts.add_exact by szlia. reflexivity. }
    rewrite Hns, Hq.
    destruct (realloc_granted al q _ h blk Hblk Hgr) as (q' & h' & Hre & Hnew).
    rewrite Hre. simpl.
    rewrite memcpy_in_ok with (blk := resized al h blk (grown b (zlen data)));
      [eauto|exact Hnew|lia|].
    rewrite zlen_resized; unfold grown; lia.
  - rewrite Hq, memcpy_in_ok with (blk := blk); [eauto|exact Hblk|lia|lia].
Qed.

(** ** [write_head] *)

Lemma front_splice blk off data k :
  0 <= off -> off + zlen data <= zlen blk -> 0 <= k ->
  take (Z.to_nat (zlen data + k)) (drop (Z.to_nat off) (splice blk off data)) =
  data ++ take (Z.to_nat k) (drop (Z.to_nat (off + zlen data)) blk).
Proof.
  unfold splice, zlen. intros Hoff Hlen Hk.
  rewrite drop_app_length' by (rewrite length_take; lia).
  rewrite take_app_ge by lia. f_equal. f_equal; [lia|f_equal; lia].
Qed.

Lemma zlen_slice blk off n :
  0 <= off -> 0 <= n -> off + n <= zlen blk ->
  zlen (take (Z.to_nat n) (drop (Z.to_nat off) blk)) = n.
Proof.
  unfold zlen. intros. rewrite length_take, length_drop. lia.
Qed.

Lemma memcpy_Done dst doff src soff n h u h' :
  memcpy dst doff src soff n h = Done u h' <->
  exists sblk qd dblk, deref h src = Some sblk /\ dst = Npos qd /\
    h !! qd = Some dblk /\ 0 <= soff /\ 0 <= n /\ soff + n <= zlen sblk /\
    0 <= doff /\ doff + n <= zlen dblk /\
    h' = <[qd := splice dblk doff (take (Z.to_nat n) (drop (Z.to_nat soff) sblk))]> h.
Proof.
  unfold memcpy. rewrite bind_Done. split.
  - intros (d & h1 & Hpeek & Hpoke).
    apply peek_Done in Hpeek as (sblk & Hs & ? & ? & ? & -> & ->).
    apply poke_Done in Hpoke as (qd & dblk & -> & Hd & ? & Hfit & ->).
    rewrite zlen_slice in Hfit by lia.
    exists sblk, qd, dblk. auto 12.
  - intros (sblk & qd & dblk & Hs & -> & Hd & ? & ? & ? & ? & ? & ->).
    eexists _, h. split.
    + apply peek_ok; eassumption.
    + destruct u. apply poke_ok; [exact Hd|lia|]. rewrite zlen_slice; lia.
Qed.

Lemma free_Done p h u h' :
  free p h = Done u h' <->
  (p = NULL /\ h' = h) \/ exists q, p = Npos q /\ is_Some (h !! q) /\ h' = delete q h.
Proof.
  unfold free, ret. destruct p as [|q].
  - split.
    + intros [= _ <-]. left. auto.
    + intros [[_ ->]|(q & ? & _)]; [destruct u; reflexivity|discriminate].
  - destruct (h !! q) as [blk|] eqn:Hq; split.
    + intros [= _ <-]. right. exists q. rewrite Hq. eauto.
    + intros [[? _]|(q' & [= <-] & _ & ->)]; [discriminate|].
      destruct u. reflexivity.
    + discriminate.
    + intros [[? _]|(q' & [= <-] & [? Hs] & _)]; [discriminate|].
      rewrite Hq in Hs. discriminate.
Qed.

Lemma content_eq h b blk :
  deref h (buf_ b) = Some blk ->
  content h b =
  take (Z.to_nat (ppos_ b - gpos_ b)) (drop (Z.to_nat (gpos_ b)) blk).
Proof. unfold content, region. intros ->. reflexivity. Qed.

Lemma write_head_Done_inv al data b h b' h' :
  wf h b -> write_head al data (zlen data) b h = Done b' h' ->
  const_buf_ b = false /\ wf h' b' /\ const_buf_ b' = false /\
  ppos_ b' - gpos_ b' = zlen data + (ppos_ b - gpos_ b) /\
  content h' b' = data ++ content h b /\
  (zlen data <= gpos_ b \/ grants al h (head_grown b (zlen data)) = true) /\
  (zlen data <= gpos_ b ->
     b' = set_gpos_ (gpos_ b - zlen data) b) /\
  (gpos_ b < zlen data ->
     pend_ b' = head_grown b (zlen data) /\ ppos_ b' = pend_ b' /\
     head_new_gpos (zlen data) b = gpos_ b' + zlen data).
Proof.
  intros Hwf H.
  destruct (wf_block h b Hwf) as (q & blk & Hq & Hblk & Hlen & Hown).
  destruct Hwf as [Hh Hg [Ho1 Ho2] _].
  pose proof (zlen_nonneg data) as Hn.
  unfold write_head in H.
  apply bind_Done in H as ([] & h0 & Ha & H).
  apply ASSERT_Done in Ha as [Hc ->]. apply negb_true_iff in Hc.
  specialize (Hown Hc).
  apply bind_Done in H as (b1 & h1 & Hre & H).
  apply bind_Done in H as ([] & h2 & Hcp & H).
  injection H as <- <-.
  unfold memcpy_in in Hcp.
  rewrite (bind_step _ _ _ _ _ (from_caller_all data h1)) in Hcp.
  apply poke_Done in Hcp as (q1 & blk1 & Hq1 & Hblk1 & Hpos & Hfit & ->).
  simpl in Hq1, Hpos, Hfit.
  assert (SizeT.sub (ppos_ b) (gpos_ b) = ppos_ b - gpos_ b) as Hsub.
  { apply SizeTFacts.sub_exact; szlia. }
  destruct (Z.ltb_spec (gpos_ b) (zlen data)) as [Hshort|Hroom].
  - (* the reallocation branch *)
    apply bind_Done in Hre as ([] & h3 & Hw & Hre). injection Hw as <-.
    apply bind_Done in Hre as (p & h4 & Hm & Hre).
    apply bind_Done in Hre as ([] & h5 & Ha & Hre).
    apply ASSERT_Done in Ha as [Hp ->]. apply negb_true_iff, N.eqb_neq in Hp.
    apply bind_Done in Hre as ([] & h6 & Hmv & Hre).
    apply bind_Done in Hre as ([] & h7 & Hfr & Hre).
    injection Hre as <- <-. simpl in Hq1, Hpos, Hfit.
    set (ns := head_new_size (zlen data) b) in *.
    set (ng := head_new_gpos (zlen data) b) in *.
    assert (0 <= ns < SizeT.modulus) as Hns.
    { subst ns. unfold head_new_size. rewrite SizeTFacts.max_spec.
      pose proof (SizeTFacts.add_in_range (zlen data) (ppos_ b)).
      pose proof (SizeTFacts.add_in_range (ppos_ b) RESERVED_HEADER_SPACE).
      unfold SizeT.in_range in *. lia. }
    apply malloc_Done in Hm as [(_ & -> & _)|(Hgr & -> & ->)]; [congruence|].
    pose proof (fresh_block_free h) as Hfresh.
    set (qf := fresh_block h) in *.
    assert (qf <> q) as Hne by congruence.
    set (J := fresh_bytes al h 0 (Z.to_nat ns)) in *.
    assert (zlen J = ns) as HJ.
    { subst J. unfold zlen. rewrite length_fresh_bytes. lia. }
    assert (ns <= SizeT.PTRDIFF_MAX) as Hmax by (apply grants_true in Hgr; tauto).
    apply memcpy_Done in Hmv
      as (sblk & qd & dblk & Hs & [= <-] & Hd & _ & _ & _ & Hng & Hngfit & ->).
    rewrite Hq in Hs. simpl in Hs. rewrite lookup_insert_ne in Hs by exact Hne.
    rewrite Hblk in Hs. injection Hs as <-.
    rewrite lookup_insert_eq in Hd. injection Hd as <-.
    rewrite Hsub in *.
    set (d := take (Z.to_nat (ppos_ b - gpos_ b)) (drop (Z.to_nat (gpos_ b)) blk)) in *.
    assert (zlen d = ppos_ b - gpos_ b) as Hd by (apply zlen_slice; lia).
    rewrite Hq in Hfr.
    apply free_Done in Hfr as [[? _]|(q0 & [= <-] & _ & ->)]; [discriminate|].
    injection Hq1 as <-.
    rewrite lookup_delete_ne, lookup_insert_eq in Hblk1 by congruence.
    injection Hblk1 as <-.
    rewrite zlen_splice in Hfit by lia.
    (* the header is an object of the address space, so nothing wrapped *)
    assert (SizeT.add (zlen data) (ppos_ b) = zlen data + ppos_ b) as Hsum.
    { apply SizeTFacts.add_exact; szlia. }
    assert (SizeT.add (ppos_ b) RESERVED_HEADER_SPACE
            = ppos_ b + RESERVED_HEADER_SPACE) as Hsum'.
    { apply SizeTFacts.add_exact; szlia. }
    assert (ns = head_grown b (zlen data)) as Hnsg.
    { subst ns. unfold head_new_size. rewrite SizeTFacts.max_spec, Hsum, Hsum'.
      reflexivity. }
    assert (ng = ns - (ppos_ b - gpos_ b)) as Hngv.
    { subst ng. unfold head_new_gpos. fold ns. rewrite Hsub.
      apply SizeTFacts.sub_exact; unfold head_grown in Hnsg; szlia. }
    assert (SizeT.sub ng (zlen data) = ng - zlen data) as Hdec.
    { apply SizeTFacts.sub_exact; unfold head_grown in Hnsg; szlia. }
    fields. rewrite Hdec in *.
    set (blk1 := splice J ng d) in *.
    assert (zlen blk1 = ns) as Hlen1 by (subst blk1; rewrite zlen_splice; lia).
    assert (zlen (splice blk1 (ng - zlen data) data) = ns) as Hlen2.
    { rewrite zlen_splice; lia. }
    split; [exact Hc|]. split; [|split; [exact Hc|]].
    { constructor; simpl.
      - apply heap_ok_insert; [|lia]. apply heap_ok_delete.
        apply heap_ok_insert; [|lia]. apply heap_ok_insert; [exact Hh|lia].
      - exact Hpos.
      - unfold ordered. simpl. lia.
      - exists (splice blk1 (ng - zlen data) data). simpl.
        rewrite lookup_insert_eq, Hc. auto. }
    split; [simpl; lia|]. split.
    { rewrite (content_eq h b blk) by (rewrite Hq; exact Hblk). fold d.
      rewrite (content_eq _ _ (splice blk1 (ng - zlen data) data))
        by (simpl; apply lookup_insert_eq).
      simpl.
      replace (ns - (ng - zlen data)) with (zlen data + zlen d) by lia.
      rewrite front_splice by lia. f_equal.
      replace (ng - zlen data + zlen data) with ng by lia.
      subst blk1.
      replace (zlen d) with (zlen d + 0) at 1 by lia.
      rewrite front_splice by lia. simpl. apply app_nil_r. }
    split; [right; rewrite <- Hnsg; exact Hgr|].
    split; [lia|]. intros _. simpl. repeat split; [exact Hnsg|lia].
  - (* the reserved margin is enough *)
    injection Hre as <- <-.
    rewrite Hq in Hq1. injection Hq1 as <-.
    rewrite Hblk in Hblk1. injection Hblk1 as <-.
    assert (SizeT.sub (gpos_ b) (zlen data) = gpos_ b - zlen data) as Hdec.
    { apply SizeTFacts.sub_exact; szlia. }
    fields. rewrite Hdec in *.
    assert (zlen (splice blk (gpos_ b - zlen data) data) = zlen blk) as Hlen'.
    { apply zlen_splice; lia. }
    split; [exact Hc|]. split; [|split; [exact Hc|]].
    { constructor; simpl.
      - apply heap_ok_insert; [auto|]. lia.
      - exact Hpos.
      - unfold ordered. simpl. lia.
      - exists (splice blk (gpos_ b - zlen data) data). simpl. rewrite Hq. simpl.
        rewrite lookup_insert_eq, Hc. split; [reflexivity|lia]. }
    split; [simpl; lia|]. split.
    { rewrite (content_eq h b blk) by (rewrite Hq; exact Hblk).
      rewrite (content_eq _ _ (splice blk (gpos_ b - zlen data) data))
        by (simpl; rewrite Hq; apply lookup_insert_eq).
      simpl.
      replace (ppos_ b - (gpos_ b - zlen data))
        with (zlen data + (ppos_ b - gpos_ b)) by lia.
      rewrite front_splice by lia. do 3 f_equal. lia. }
    split; [left; lia|]. split; [reflexivity|lia].
Qed.

Lemma memcpy_ok qd doff src soff n h sblk dblk :
  deref h src = Some sblk -> h !! qd = Some dblk ->
  0 <= soff -> 0 <= n -> soff + n <= zlen sblk ->
  0 <= doff -> doff + n <= zlen dblk ->
  memcpy (Npos qd) doff src soff n h =
  Done tt (<[qd := splice dblk doff
                     (take (Z.to_nat n) (drop (Z.to_nat soff) sblk))]> h).
Proof. intros. apply memcpy_Done. exists sblk, qd, dblk. auto 12. Qed.

Lemma free_ok q h blk :
  h !! q = Some blk -> free (Npos q) h = Done tt (delete q h).
Proof. intros Hq. unfold free. rewrite Hq. reflexivity. Qed.

(** [write_head] returns whenever the margin is enough or the allocator
    grants the new block. *)
Lemma write_head_total al data b h :
  wf h b -> const_buf_ b = false ->
  zlen data <= gpos_ b \/ grants al h (head_grown b (zlen data)) = true ->
  exists b' h', write_head al data (zlen data) b h = Done b' h'.
Proof.
  intros Hwf Hc Hroom.
  destruct (wf_block h b Hwf) as (q & blk & Hq & Hblk & Hlen & Hown).
  destruct Hwf as [Hh Hg [Ho1 Ho2] _]. specialize (Hown Hc).
  pose proof (zlen_nonneg data) as Hn.
  assert (SizeT.sub (ppos_ b) (gpos_ b) = ppos_ b - gpos_ b) as Hsub.
  { apply SizeTFacts.sub_exact; szlia. }
  unfold write_head. rewrite Hc. unfold bind at 1 2, ASSERT, WARN, ret. simpl negb.
  destruct (Z.ltb_spec (gpos_ b) (zlen data)) as [Hshort|Hfit].
  - destruct Hroom as [|Hgr]; [lia|].
    assert (head_grown b (zlen data) <= SizeT.PTRDIFF_MAX) as Hmax.
    { apply grants_true in Hgr. tauto. }
    assert (head_new_size (zlen data) b = head_grown b (zlen data)) as Hns.
    { unfold head_new_size, head_grown in *.
      rewrite SizeTFacts.max_spec, !SizeTFacts.add_exact by szlia. reflexivity. }
    assert (head_new_gpos (zlen data) b
            = head_grown b (zlen data) - (ppos_ b - gpos_ b)) as Hng.
    { unfold head_new_gpos. rewrite Hns, Hsub.
      apply SizeTFacts.sub_exact; unfold head_grown in *; szlia. }
    rewrite Hng, Hns, Hsub. set (ns := head_grown b (zlen data)) in *.
    assert (ns - (ppos_ b - gpos_ b) >= zlen data + gpos_ b) as Hge.
    { subst ns. unfold head_grown. lia. }
    pose proof (fresh_block_free h) as Hfresh.
    assert (fresh_block h <> q) as Hne by congruence.
    unfold bind at 1 2. unfold malloc. rewrite Hgr. simpl.
    set (qf := fresh_block h) in *.
    set (J := fresh_bytes al h 0 (Z.to_nat ns)).
    assert (zlen J = ns) as HJ.
    { subst J. unfold zlen. rewrite length_fresh_bytes. unfold head_grown in *. lia. }
    unfold bind at 1 2.
    rewrite (memcpy_ok qf _ (buf_ b) _ _ _ blk J);
      [|rewrite Hq; simpl; rewrite lookup_insert_ne by exact Hne; exact Hblk
       |apply lookup_insert_eq|lia..].
    unfold bind at 1. rewrite Hq.
    erewrite free_ok
      by (rewrite !lookup_insert_ne by exact Hne; exact Hblk).
    fields.
    rewrite SizeTFacts.sub_exact by szlia.
    unfold bind.
    erewrite memcpy_in_ok; [eauto| |lia|].
    + rewrite lookup_delete_ne, lookup_insert_eq by congruence. reflexivity.
    + rewrite zlen_splice; rewrite ?zlen_slice; lia.
  - unfold bind. fields. rewrite SizeTFacts.sub_exact by szlia. rewrite Hq.
    erewrite memcpy_in_ok; [eauto|exact Hblk|lia|lia].
Qed.

(** ** The constructors establish the invariant *)

Lemma owned0_constructed : StreamBuffer_owned al_plain heap0 = Done owned0 heap1.
Proof. vm_compute. reflexivity. Qed.

Lemma view0_constructed : StreamBuffer_borrowed 1 10 heap1 = Done view0 heap1.
Proof. reflexivity. Qed.

Lemma StreamBuffer_owned_wf al h b h' :
  heap_ok h -> StreamBuffer_owned al h = Done b h' -> buf_ b <> NULL ->
  wf h' b /\ const_buf_ b = false /\
  gpos_ b = RESERVED_HEADER_SPACE /\ ppos_ b = RESERVED_HEADER_SPACE /\
  pend_ b = RESERVED_HEADER_SPACE * 2.
Proof.
  intros Hh H Hp. unfold StreamBuffer_owned in H.
  apply bind_Done in H as (p & h1 & Hm & H). injection H as <- <-.
  simpl in Hp.
  apply malloc_Done in Hm as [(_ & -> & _)|(Hgr & -> & ->)]; [congruence|].
  assert (zlen (fresh_bytes al h 0 (Z.to_nat (RESERVED_HEADER_SPACE * 2)))
          = RESERVED_HEADER_SPACE * 2) as Hlen.
  { unfold zlen. rewrite length_fresh_bytes. szlia. }
  split; [|repeat split].
  constructor; simpl.
  - apply heap_ok_insert; [exact Hh|]. rewrite Hlen. szlia.
  - szlia.
  - unfold ordered. simpl. szlia.
  - eexists. simpl. rewrite lookup_insert_eq. split; [reflexivity|exact Hlen].
Qed.

Lemma region_ok_true h buf size :
  region_ok h buf size = true <->
  exists blk, deref h buf = Some blk /\ 0 <= size <= zlen blk.
Proof.
  unfold region_ok. destruct (deref h buf) as [blk|].
  - rewrite andb_true_iff, !Z.leb_le. split.
    + intros ?. exists blk. auto.
    + intros (blk' & [= <-] & ?). assumption.
  - split; [discriminate|]. intros (blk & ? & _). discriminate.
Qed.

Lemma set_buf_wf h buf size b b' h' :
  heap_ok h -> region_ok h buf size = true ->
  set_buf buf size b h = Done b' h' ->
  h' = h /\ wf h b' /\ const_buf_ b' = true.
Proof.
  intros Hh Hr [= <- <-]. apply region_ok_true in Hr as (blk & Hblk & Hsz).
  repeat split; simpl; try lia; try assumption.
  exists blk. simpl. split; [exact Hblk|lia].
Qed.

Lemma StreamBuffer_borrowed_wf h buf size b h' :
  heap_ok h -> region_ok h buf size = true ->
  StreamBuffer_borrowed buf size h = Done b h' ->
  h' = h /\ wf h b /\ const_buf_ b = true.
Proof.
  intros Hh Hr [= <- <-]. apply region_ok_true in Hr as (blk & Hblk & Hsz).
  repeat split; simpl; try lia; try assumption.
  exists blk. simpl. split; [exact Hblk|lia].
Qed.

Lemma read_wf al n b h out b' h' :
  wf h b -> read al n b h = Done (out, b') h' -> wf h' b'.
Proof.
  intros Hwf H.
  destruct (wf_block h b Hwf) as (q & blk & Hq & Hblk & Hlen & _).
  apply read_Done_inv in H
    as (blk' & Hblk' & Hg & Hn & Hfit & Hle & _ & -> & ->).
  rewrite Hq in Hblk'. simpl in Hblk'. rewrite Hblk in Hblk'.
  injection Hblk' as <-.
  rewrite SizeTFacts.add_exact in * by szlia.
  destruct Hwf as [Hh _ [Ho1 Ho2] Hb].
  constructor; simpl; try assumption; try lia.
  unfold ordered. simpl. lia.
Qed.

Lemma heap_ok_heap0 : heap_ok heap0.
Proof.
  unfold heap0. rewrite <- insert_empty.
  apply heap_ok_insert; [apply heap_ok_empty|]. vm_compute. discriminate.
Qed.

Lemma wf_owned0 : wf heap1 owned0.
Proof.
  apply (StreamBuffer_owned_wf al_plain heap0 owned0 heap1).
  - exact heap_ok_heap0.
  - exact owned0_constructed.
  - discriminate.
Qed.

Lemma wf_view0 : wf heap1 view0.
Proof.
  destruct (StreamBuffer_borrowed_wf heap1 1 10 view0 heap1) as (_ & H & _).
  - destruct wf_owned0. assumption.
  - reflexivity.
  - reflexivity.
  - exact H.
Qed.

(** When the sum wraps, the [ASSERT] lets the call through and the copy
    leaves the block. *)
Lemma read_wrapped al n b h :
  wf h b -> n < SizeT.modulus -> SizeT.modulus <= gpos_ b + n ->
  read al n b h = Undefined.
Proof.
  intros Hwf Hn Hwrap.
  destruct (wf_block h b Hwf) as (q & blk & Hq & Hblk & Hlen & _).
  destruct Hwf as [_ Hg [Ho1 Ho2] _].
  assert (SizeT.add (gpos_ b) n = gpos_ b + n - SizeT.modulus) as Hadd.
  { unfold SizeT.add. symmetry. apply (Z.mod_unique _ _ 1); szlia. }
  rewrite read_unfold, Hadd. unfold bind, ASSERT, peek.
  destruct (Z.leb_spec (gpos_ b + n - SizeT.modulus) (ppos_ b)); [|szlia].
  rewrite Hq. simpl. rewrite Hblk.
  destruct (Z.leb_spec (gpos_ b + n) (zlen blk)); [szlia|].
  rewrite !andb_false_r. reflexivity.
Qed.

(** Every call on one instance other than [swap] keeps it well formed. *)
Lemma calls_keep_wf al h b :
  wf h b ->
  (forall data b' h', write al data (zlen data) b h = Done b' h' -> wf h' b') /\
  (forall n out b' h', read al n b h = Done (out, b') h' -> wf h' b') /\
  (forall data b' h',
     write_head al data (zlen data) b h = Done b' h' -> wf h' b') /\
  (forall n b' h', get_size b h = Done (n, b') h' -> wf h' b') /\
  (forall buf size b' h',
     region_ok h buf size = true ->
     set_buf buf size b h = Done b' h' -> wf h' b').
Proof.
  intros Hwf. split; [|split; [|split; [|split]]].
  - intros data b' h' H. apply (write_Done_inv al data b h b' h' Hwf H).
  - intros n out b' h' H. apply (read_wf al n b h out b' h' Hwf H).
  - intros data b' h' H. apply (write_head_Done_inv al data b h b' h' Hwf H).
  - intros n b' h' [= _ <- <-]. exact Hwf.
  - intros buf size b' h' Hr H.
    destruct (set_buf_wf h buf size b b' h' (wf_heap h b Hwf) Hr H)
      as (-> & Hwf' & _).
    exact Hwf'.
Qed.

(** With the constant set the other way, a [read] that takes [gpos_] past
    [GROW_SIZE] compacts the buffer: the same call that only advances
    [gpos_] under [SHRINK_WITH_GET = false] moves the block and resets the
    offsets. *)
Lemma read_with_compaction :
  exists b h,
    write al_plain (repeat x41 1100) 1100 owned0 heap1 = Done b h /\
    (exists out b', read al_plain 1030 b h = Done (out, b') h /\
       gpos_ b' = 1094 /\ ppos_ b' = 1164 /\ pend_ b' = 1164) /\
    (exists out b' h', read_with true al_plain 1030 b h = Done (out, b') h' /\
       gpos_ b' = 0 /\ ppos_ b' = 70 /\ pend_ b' = 70 /\ buf_ b' <> buf_ b).
Proof.
  eexists _, _. split; [vm_compute; reflexivity|]. split.
  - eexists _, _. split; [vm_compute; reflexivity|]. repeat split.
  - eexists _, _, _. split; [vm_compute; reflexivity|]. repeat split.
    discriminate.
Qed.

(** * The claims *)

(** C1 (code defect).  [swap] does not exchange the two instances: its
    fourth line swaps [gpos_] with [rhs.ppos_], so after the call [this]
    has [rhs]'s old [ppos_] as its [gpos_] and its own old [gpos_] as its
    [ppos_], while [rhs] keeps its [gpos_] and receives [this]'s old
    [ppos_].  On a fresh owned buffer and a view of ten bytes the result
    is not the exchanged pair. *)
Theorem swap_crosses_offsets :
  swap owned0 view0 =
    ({| buf_ := 1; const_buf_ := true; pend_ := 10; gpos_ := 10; ppos_ := 64 |},
     {| buf_ := 2; const_buf_ := false; pend_ := 128; gpos_ := 0; ppos_ := 64 |})
  /\ swap owned0 view0 <> (view0, owned0).
Proof. split; [reflexivity|]. rewrite swap_fields. discriminate. Qed.

Lemma reachable_pair : reachable al_plain
  {| store := heap1; obj_a := owned0; obj_b := view0 |}.
Proof.
  apply (reach_init al_plain heap0 owned0 heap1 view0 heap1).
  - exact heap_ok_heap0.
  - apply ctor_owned; [exact owned0_constructed|discriminate].
  - apply (ctor_borrowed al_plain heap1 1 10); reflexivity.
Qed.

(** C2 (code defect).  The order [gpos_ <= ppos_ <= pend_] does not hold in
    every reachable state: constructing an owned buffer and a view of ten
    bytes and calling [swap] once leaves the first instance with
    [ppos_ = 64] and [pend_ = 10]. *)
Theorem swap_breaks_ordering :
  exists w, reachable al_plain w /\
    ppos_ (obj_a w) = 64 /\ pend_ (obj_a w) = 10 /\ ~ ordered (obj_a w).
Proof.
  exists {| store := heap1;
            obj_a := fst (swap owned0 view0);
            obj_b := snd (swap owned0 view0) |}.
  split.
  - apply (reach_step al_plain (Swap Lhs) _ _ reachable_pair). reflexivity.
  - simpl. repeat split. unfold ordered. simpl. lia.
Qed.

(** C5.  On a borrowed buffer both [write] and [write_head] stop at their
    first [ASSERT], whatever bytes and size are passed, and the heap at the
    failure is the heap of the call: no byte was touched. *)
Theorem borrowed_rejects_writes al buf size b h :
  const_buf_ b = true ->
  write al buf size b h =
    Fatal "writing into a const buffer is not allowed." h /\
  write_head al buf size b h =
    Fatal "writing into a const buffer is not allowed." h.
Proof.
  intros Hc. unfold write, write_head, bind, ASSERT. rewrite Hc. simpl. auto.
Qed.

(** C5 on the view of the ten-byte array. *)
Lemma borrowed_rejects_writes_witness :
  const_buf_ view0 = true /\
  write al_plain [x01] 1 view0 heap1 =
    Fatal "writing into a const buffer is not allowed." heap1 /\
  write_head al_plain [x01] 1 view0 heap1 =
    Fatal "writing into a const buffer is not allowed." heap1.
Proof.
  split; [reflexivity|].
  apply (borrowed_rejects_writes al_plain [x01] 1 view0 heap1). reflexivity.
Defined.

(** C6 (code defect).  The sum [gpos_ + size] of the [ASSERT] in [read] is
    a [size_t] sum.  On a fresh owned buffer ([gpos_ = ppos_ = 64]) a
    request for [SIZE_MAX] bytes reads past the written data, yet the sum
    wraps to 63, the [ASSERT] passes, and the [memcpy] runs off the block:
    the call ends in undefined behaviour, not in the assertion failure. *)
Theorem read_wraps_past_assert al :
  wf heap1 owned0 /\
  ppos_ owned0 < gpos_ owned0 + SizeT.SIZE_MAX /\
  SizeT.add (gpos_ owned0) SizeT.SIZE_MAX = 63 /\
  read al SizeT.SIZE_MAX owned0 heap1 = Undefined.
Proof. split; [exact wf_owned0|]. repeat split. Qed.

(** C8.  [get_size] returns [ppos_ - gpos_] (the [size_t] difference, which
    is the integer difference in every well-formed state) and leaves both
    the instance and the heap as they were; after a [read] of exactly that
    many bytes has returned, [get_size] returns 0. *)
Theorem get_size_is_difference al b h :
  get_size b h = Done (SizeT.sub (ppos_ b) (gpos_ b), b) h /\
  (wf h b -> SizeT.sub (ppos_ b) (gpos_ b) = ppos_ b - gpos_ b) /\
  (forall out b' h',
     read al (SizeT.sub (ppos_ b) (gpos_ b)) b h = Done (out, b') h' ->
     get_size b' h' = Done (0, b') h').
Proof.
  split; [reflexivity|]. split.
  - intros Hwf. destruct (wf_block h b Hwf) as (q & blk & _ & _ & Hlen & _).
    destruct Hwf as [_ Hg [Ho1 Ho2] _]. apply SizeTFacts.sub_exact; szlia.
  - intros out b' h' H.
    apply read_Done_inv in H as (_ & _ & _ & _ & _ & _ & _ & _ & ->).
    unfold get_size, ret. simpl. do 2 f_equal.
    unfold SizeT.sub, SizeT.add.
    rewrite Zplus_mod_idemp_r, Zminus_mod_idemp_r.
    replace (ppos_ b - (gpos_ b + (ppos_ b - gpos_ b))) with 0 by lia.
    reflexivity.
Qed.

(** C8 on the view of the ten-byte array: ten bytes before the read, none
    after it. *)
Lemma get_size_is_difference_witness :
  wf heap1 view0 /\
  read al_plain 10 view0 heap1 = Done (ten_bytes, set_gpos_ 10 view0) heap1 /\
  get_size view0 heap1 = Done (10, view0) heap1 /\
  SizeT.sub (ppos_ view0) (gpos_ view0) = ppos_ view0 - gpos_ view0 /\
  get_size (set_gpos_ 10 view0) heap1 = Done (0, set_gpos_ 10 view0) heap1.
Proof.
  pose proof (get_size_is_difference al_plain view0 heap1) as (H1 & H2 & H3).
  split; [exact wf_view0|]. split; [reflexivity|]. split; [exact H1|].
  split; [exact (H2 wf_view0)|].
  apply (H3 ten_bytes). reflexivity.
Defined.

(** C10.  With [SHRINK_WITH_GET = false] a [read] that returns has changed
    nothing but [gpos_], which went up by [size]: the heap, and with it
    every stored byte, the pointer, the ownership flag, [pend_] and [ppos_]
    are the same.  The new [gpos_] is the [size_t] sum, which is the integer
    sum as soon as the blocks of the heap are objects of the address
    space. *)
Theorem read_only_advances_gpos al n b h out b' h' :
  read al n b h = Done (out, b') h' ->
  SHRINK_WITH_GET = false /\
  h' = h /\ region h' b' = region h b /\
  buf_ b' = buf_ b /\ const_buf_ b' = const_buf_ b /\
  pend_ b' = pend_ b /\ ppos_ b' = ppos_ b /\
  gpos_ b' = SizeT.add (gpos_ b) n /\
  (heap_ok h -> gpos_ b' = gpos_ b + n).
Proof.
  intros H.
  apply read_Done_inv in H
    as (blk & Hblk & Hg & Hn & Hfit & _ & _ & -> & ->).
  repeat split. intros Hh. simpl.
  assert (zlen blk <= SizeT.PTRDIFF_MAX) as Hmax.
  { destruct (buf_ b) as [|q]; [discriminate|]. exact (Hh q blk Hblk). }
  apply SizeTFacts.add_exact; szlia.
Qed.

(** C10 on the view of the ten-byte array and a read of four bytes. *)
Lemma read_only_advances_gpos_witness :
  read al_plain 4 view0 heap1 =
    Done ([x01; x02; x03; x04], set_gpos_ 4 view0) heap1 /\
  heap_ok heap1 /\
  buf_ (set_gpos_ 4 view0) = buf_ view0 /\
  ppos_ (set_gpos_ 4 view0) = ppos_ view0 /\
  gpos_ (set_gpos_ 4 view0) = gpos_ view0 + 4.
Proof.
  assert (heap_ok heap1) as Hh by (destruct wf_view0; assumption).
  split; [reflexivity|]. split; [exact Hh|].
  destruct (read_only_advances_gpos al_plain 4 view0 heap1
              [x01; x02; x03; x04] (set_gpos_ 4 view0) heap1 eq_refl)
    as (_ & _ & _ & H1 & _ & _ & H2 & _ & H3).
  split; [exact H1|]. split; [exact H2|]. exact (H3 Hh).
Defined.

(** C9, as stated, fails.  On a fresh owned buffer a header size of
    [SIZE_MAX] takes the reallocation branch, the sum [size + ppos_] wraps
    to 63, the new size is 128, the new read offset is 128 and so smaller
    than the header, and the decrement wraps around to 129. *)
Lemma head_offset_wraps :
  const_buf_ owned0 = false /\
  gpos_ owned0 < SizeT.SIZE_MAX /\
  head_new_size SizeT.SIZE_MAX owned0 = 128 /\
  head_new_gpos SizeT.SIZE_MAX owned0 = 128 /\
  ~ SizeT.SIZE_MAX <= head_new_gpos SizeT.SIZE_MAX owned0 /\
  SizeT.sub (head_new_gpos SizeT.SIZE_MAX owned0) SizeT.SIZE_MAX = 129.
Proof. repeat split. vm_compute. intros H. apply H. reflexivity. Qed.

(** C9, amended.  In a well-formed owned buffer, when the reallocation
    branch of [write_head] runs and the sum [size + ppos_] does not exceed
    [SIZE_MAX], the new size is [max (size + ppos_) (ppos_ + 64)], the new
    read offset is that size less the unread length and is at least [size];
    the decrement does not wrap, and the header lands inside the new
    block. *)
Theorem head_offset_no_underflow h b n :
  wf h b -> const_buf_ b = false ->
  gpos_ b < n -> n + ppos_ b <= SizeT.SIZE_MAX ->
  head_new_size n b = Z.max (n + ppos_ b) (ppos_ b + RESERVED_HEADER_SPACE) /\
  head_new_gpos n b = head_new_size n b - (ppos_ b - gpos_ b) /\
  n <= head_new_gpos n b /\
  SizeT.sub (head_new_gpos n b) n = head_new_gpos n b - n /\
  0 <= head_new_gpos n b - n /\
  head_new_gpos n b - n + n <= head_new_size n b.
Proof.
  intros Hwf Hc Hshort Hsum.
  destruct (wf_block h b Hwf) as (q & blk & _ & _ & Hlen & _).
  destruct Hwf as [_ Hg [Ho1 Ho2] _].
  assert (head_new_size n b
          = Z.max (n + ppos_ b) (ppos_ b + RESERVED_HEADER_SPACE)) as Hns.
  { unfold head_new_size.
    rewrite SizeTFacts.max_spec, !SizeTFacts.add_exact by szlia. reflexivity. }
  assert (head_new_gpos n b = head_new_size n b - (ppos_ b - gpos_ b)) as Hng.
  { unfold head_new_gpos. rewrite (SizeTFacts.sub_exact (ppos_ b)) by szlia.
    apply SizeTFacts.sub_exact; szlia. }
  split; [exact Hns|]. split; [exact Hng|]. split; [lia|].
  split; [apply SizeTFacts.sub_exact; szlia|]. lia.
Qed.

(** C9 on the fresh owned buffer and a header of 100 bytes. *)
Lemma head_offset_no_underflow_witness :
  wf heap1 owned0 /\ gpos_ owned0 < 100 /\
  head_new_size 100 owned0 = 164 /\ head_new_gpos 100 owned0 = 164 /\
  100 <= head_new_gpos 100 owned0.
Proof.
  split; [exact wf_owned0|]. split; [reflexivity|].
  destruct (head_offset_no_underflow heap1 owned0 100 wf_owned0 eq_refl)
    as (H1 & _ & H3 & _); [reflexivity|vm_compute; discriminate|].
  split; [exact H1|]. split; [reflexivity|exact H3].
Defined.

Lemma take_lookup_prefix (l l' : list byte) (k : nat) (extra : list byte) k' :
  take k' l' = take k l ++ extra -> (k <= length l)%nat ->
  forall i, (i < k)%nat -> l' !! i = l !! i.
Proof.
  intros Heq Hk i Hi.
  assert (take k' l' !! i = l !! i) as H.
  { rewrite Heq, lookup_app_l by (rewrite length_take; lia).
    apply lookup_take_lt. exact Hi. }
  destruct (decide (i < k')%nat) as [Hlt|Hge].
  - rewrite lookup_take_lt in H by exact Hlt. exact H.
  - rewrite lookup_take_ge in H by lia.
    symmetry in H. apply lookup_ge_None in H. lia.
Qed.

(** C7.  When an owned buffer is written [n] bytes that do not fit
    ([ppos_ + n > pend_]) and the allocator grants the larger block, the
    call returns with [pend_ = max (ppos_ + n) (ppos_ + GROW_SIZE)], where
    [GROW_SIZE] is 1024, and every byte at an offset below the old [ppos_]
    is where it was.  The new [pend_] is the size of the storage: the
    buffer returned is well formed and owned, [buf_] points to a live block
    of exactly [pend_] bytes, [gpos_] is the same, [ppos_] went up by [n],
    and the block starts with the old bytes below [ppos_] followed by the
    bytes written. *)
Theorem write_grows_capacity al data b h :
  wf h b -> const_buf_ b = false ->
  pend_ b < ppos_ b + zlen data ->
  grants al h (Z.max (ppos_ b + zlen data) (ppos_ b + GROW_SIZE)) = true ->
  exists b' h',
    write al data (zlen data) b h = Done b' h' /\
    pend_ b' = Z.max (ppos_ b + zlen data) (ppos_ b + GROW_SIZE) /\
    GROW_SIZE = 1024 /\
    (forall i : nat, Z.of_nat i < ppos_ b ->
       region h' b' !! i = region h b !! i) /\
    wf h' b' /\ const_buf_ b' = false /\
    deref h' (buf_ b') = Some (region h' b') /\
    zlen (region h' b') = pend_ b' /\
    gpos_ b' = gpos_ b /\ ppos_ b' = ppos_ b + zlen data /\
    take (Z.to_nat (ppos_ b + zlen data)) (region h' b') =
      take (Z.to_nat (ppos_ b)) (region h b) ++ data.
Proof.
  intros Hwf Hc Hbig Hgr.
  destruct (write_total al data b h Hwf Hc (or_intror Hgr)) as (b' & h' & Hw).
  exists b', h'. split; [exact Hw|].
  destruct (write_Done_inv al data b h b' h' Hwf Hw)
    as (_ & Hwf' & Hc' & Hg' & Hp' & Hpend & _ & Htake).
  destruct (Z.leb_spec (ppos_ b + zlen data) (pend_ b)); [lia|].
  split; [exact Hpend|]. split; [reflexivity|].
  split.
  { intros i Hi.
    destruct (wf_block h b Hwf) as (q & blk & Hq & Hblk & Hlen & _).
    destruct Hwf as [_ Hg [Ho1 Ho2] _].
    apply (take_lookup_prefix _ _ _ _ _ Htake); [|lia].
    unfold region. rewrite Hq. simpl. rewrite Hblk. simpl.
    unfold zlen in *. lia. }
  split; [exact Hwf'|]. split; [exact Hc'|].
  destruct (wf_block h' b' Hwf') as (q' & blk' & Hq' & Hblk' & _ & Hown').
  assert (region h' b' = blk') as Hreg.
  { unfold region. rewrite Hq'. simpl. rewrite Hblk'. reflexivity. }
  split; [rewrite Hreg, Hq'; exact Hblk'|].
  split; [rewrite Hreg; exact (Hown' Hc')|].
  split; [exact Hg'|]. split; [exact Hp'|exact Htake].
Qed.

(** C7 on the fresh owned buffer: 100 bytes do not fit the 64 that are
    left, and the block grows to [64 + 1024] bytes. *)
Lemma write_grows_capacity_witness :
  exists b' h',
    write al_plain (repeat x41 100) 100 owned0 heap1 = Done b' h' /\
    pend_ b' = 1088 /\ zlen (region h' b') = pend_ b' /\ wf h' b'.
Proof.
  destruct (write_grows_capacity al_plain (repeat x41 100) owned0 heap1
              wf_owned0 eq_refl)
    as (b' & h' & Hw & Hp & _ & _ & Hwf' & _ & _ & Hlen & _);
    [reflexivity|reflexivity|].
  exists b', h'. split; [exact Hw|]. split; [exact Hp|].
  split; [exact Hlen|exact Hwf'].
Defined.

(** ** Content after a call *)

Lemma write_content al data b h b' h' :
  wf h b -> write al data (zlen data) b h = Done b' h' ->
  wf h' b' /\ const_buf_ b' = false /\
  content h' b' = content h b ++ data.
Proof.
  intros Hwf H.
  destruct (write_Done_inv al data b h b' h' Hwf H)
    as (_ & Hwf' & Hc' & Hg' & Hp' & _ & _ & Htake).
  split; [exact Hwf'|]. split; [exact Hc'|].
  destruct (wf_block h b Hwf) as (q & blk & Hq & Hblk & Hlen & _).
  destruct Hwf as [_ Hg [Ho1 Ho2] _].
  pose proof (zlen_nonneg data) as Hn.
  unfold content. rewrite Hg', Hp', !take_drop_commute.
  replace (Z.to_nat (gpos_ b) + Z.to_nat (ppos_ b + zlen data - gpos_ b))%nat
    with (Z.to_nat (ppos_ b + zlen data)) by lia.
  replace (Z.to_nat (gpos_ b) + Z.to_nat (ppos_ b - gpos_ b))%nat
    with (Z.to_nat (ppos_ b)) by lia.
  rewrite Htake. apply drop_app_le.
  unfold region. rewrite Hq. simpl. rewrite Hblk. simpl.
  rewrite length_take. unfold zlen in *. lia.
Qed.

Lemma write_all_content al ws : forall b h b' h',
  wf h b -> write_all al ws b h = Done b' h' ->
  wf h' b' /\ content h' b' = content h b ++ concat ws.
Proof.
  induction ws as [|d ws IH]; intros b h b' h' Hwf H.
  - injection H as <- <-. rewrite app_nil_r. auto.
  - simpl in H. apply bind_Done in H as (b1 & h1 & Hw & H).
    destruct (write_content al d b h b1 h1 Hwf Hw) as (Hwf1 & _ & Hc1).
    destruct (IH b1 h1 b' h' Hwf1 H) as (Hwf' & Hc').
    split; [exact Hwf'|]. rewrite Hc', Hc1. simpl. symmetry. apply app_assoc.
Qed.

(** Under an allocator that turns nothing down, a sequence of writes
    returns as long as the buffer stays an object of the address space. *)
Lemma write_all_total al ws : forall b h,
  wf h b -> const_buf_ b = false ->
  (forall h' n, refuses al h' n = false) ->
  ppos_ b + zlen (concat ws) + GROW_SIZE <= SizeT.PTRDIFF_MAX ->
  exists b' h', write_all al ws b h = Done b' h'.
Proof.
  induction ws as [|d ws IH]; intros b h Hwf Hc Hal Hsize.
  - exists b, h. reflexivity.
  - assert (zlen (concat (d :: ws)) = zlen d + zlen (concat ws)) as Hlen.
    { simpl. unfold zlen. rewrite length_app. lia. }
    pose proof (zlen_nonneg d). pose proof (zlen_nonneg (concat ws)).
    destruct (write_total al d b h Hwf Hc) as (b1 & h1 & Hw).
    { right. apply grants_true. split; [apply Hal|]. unfold grown. szlia. }
    destruct (write_Done_inv al d b h b1 h1 Hwf Hw)
      as (_ & Hwf1 & Hc1 & _ & Hp1 & _).
    destruct (IH b1 h1 Hwf1 Hc1 Hal) as (b' & h' & Hws); [lia|].
    exists b', h'. simpl. rewrite (bind_step _ _ _ _ _ Hw). exact Hws.
Qed.

Lemma length_content h b :
  wf h b -> length (content h b) = Z.to_nat (ppos_ b - gpos_ b).
Proof.
  intros Hwf.
  destruct (wf_block h b Hwf) as (q & blk & Hq & Hblk & Hlen & _).
  destruct Hwf as [_ Hg [Ho1 Ho2] _].
  unfold content, region. rewrite Hq. simpl. rewrite Hblk. simpl.
  rewrite length_take, length_drop. unfold zlen in *. lia.
Qed.

Lemma content_to_end h b :
  wf h b -> ppos_ b = zlen (region h b) ->
  content h b = drop (Z.to_nat (gpos_ b)) (region h b).
Proof.
  intros Hwf Hfull. destruct Hwf as [_ Hg [Ho1 Ho2] _].
  unfold content. apply take_ge. rewrite length_drop.
  unfold zlen in *. lia.
Qed.

(** A [read] inside the written data returns the head of the content and
    leaves the rest. *)
Lemma read_content al (n : nat) b h :
  wf h b -> (n <= length (content h b))%nat ->
  exists b', read al (Z.of_nat n) b h = Done (take n (content h b), b') h /\
    wf h b' /\ content h b' = drop n (content h b).
Proof.
  intros Hwf Hn. rewrite (length_content h b Hwf) in Hn.
  pose proof Hwf as [_ Hg [Ho1 Ho2] _].
  exists (set_gpos_ (gpos_ b + Z.of_nat n) b).
  assert (read al (Z.of_nat n) b h =
          Done (take (Z.to_nat (Z.of_nat n)) (drop (Z.to_nat (gpos_ b)) (region h b)),
                set_gpos_ (gpos_ b + Z.of_nat n) b) h) as Hr.
  { apply read_ok; [exact Hwf|lia|lia]. }
  split; [|split].
  - rewrite Hr. do 2 f_equal. unfold content.
    rewrite take_take, Nat2Z.id. f_equal. lia.
  - apply (read_wf al _ b h _ _ h Hwf Hr).
  - unfold content, region. simpl.
    rewrite skipn_firstn_comm, drop_drop. f_equal; [lia|f_equal; lia].
Qed.

Lemma read_all_content al rs : forall b h,
  wf h b -> (total rs <= length (content h b))%nat ->
  exists outs b', read_all al rs b h = Done (outs, b') h /\
    concat outs = take (total rs) (content h b).
Proof.
  induction rs as [|n rs IH]; intros b h Hwf Hn.
  - exists [], b. split; reflexivity.
  - simpl in Hn.
    destruct (read_content al n b h Hwf) as (b1 & Hr & Hwf1 & Hc1); [lia|].
    destruct (IH b1 h Hwf1) as (outs & b' & Hrs & Hout).
    { rewrite Hc1, length_drop. lia. }
    exists (take n (content h b) :: outs), b'. split.
    + simpl. unfold bind. rewrite Hr. simpl. rewrite Hrs. reflexivity.
    + simpl. rewrite Hout, Hc1. apply take_take_drop.
Qed.

Lemma owned1_written : write al_plain [x01] 1 owned0 heap1 = Done owned1 heap2.
Proof. vm_compute. reflexivity. Qed.

Lemma wf_owned1 : wf heap2 owned1.
Proof.
  apply (write_content al_plain [x01] owned0 heap1 owned1 heap2 wf_owned0).
  exact owned1_written.
Qed.

Lemma owned5_headed :
  write_head al_plain [x01] 1 owned0 heap1 = Done owned5 heap5.
Proof. vm_compute. reflexivity. Qed.

Lemma wf_owned5 : wf heap5 owned5.
Proof.
  apply (write_head_Done_inv al_plain [x01] owned0 heap1 owned5 heap5 wf_owned0).
  exact owned5_headed.
Qed.

(** C3, as stated, fails: an owned buffer that holds one unread byte, the
    byte 1 that [write_head] put in front, returns that byte to a read of
    length 1 that follows a write of the byte 2. *)
Lemma roundtrip_after_unread_byte :
  wf heap5 owned5 /\ const_buf_ owned5 = false /\
  exists b1 h1 outs b2 h2,
    write_all al_plain [[x02]] owned5 heap5 = Done b1 h1 /\
    read_all al_plain [1%nat] b1 h1 = Done (outs, b2) h2 /\
    total [1%nat] = length (concat [[x02]]) /\
    concat outs = [x01] /\
    concat outs <> concat [[x02]].
Proof.
  split; [exact wf_owned5|]. split; [reflexivity|].
  eexists _, _, _, _, _.
  split; [vm_compute; reflexivity|].
  split; [vm_compute; reflexivity|].
  split; [reflexivity|]. split; [reflexivity|]. discriminate.
Qed.

(** C3, amended.  For an owned buffer with no unread bytes
    ([gpos_ = ppos_]): once a sequence of [write] calls has returned, every
    sequence of [read] calls of the same total length returns, and the
    bytes read, concatenated, are the bytes written, concatenated. *)
Theorem write_read_roundtrip al ws rs b h b1 h1 :
  wf h b -> const_buf_ b = false -> gpos_ b = ppos_ b ->
  write_all al ws b h = Done b1 h1 ->
  total rs = length (concat ws) ->
  exists outs b2,
    read_all al rs b1 h1 = Done (outs, b2) h1 /\
    concat outs = concat ws.
Proof.
  intros Hwf _ Hempty Hw Hlen.
  destruct (write_all_content al ws b h b1 h1 Hwf Hw) as (Hwf1 & Hc).
  assert (content h b = []) as Hnil.
  { apply length_zero_iff_nil. rewrite (length_content h b Hwf). lia. }
  rewrite Hnil in Hc. simpl in Hc.
  destruct (read_all_content al rs b1 h1 Hwf1) as (outs & b2 & Hr & Hout).
  { rewrite Hc. lia. }
  exists outs, b2. split; [exact Hr|].
  rewrite Hout, Hc, Hlen. apply firstn_all.
Qed.

(** C3 on the fresh owned buffer: two writes of 2 and 1 bytes, two reads
    of 1 and 2 bytes. *)
Lemma write_read_roundtrip_witness :
  exists b1 h1 outs b2,
    write_all al_plain [[x01; x02]; [x03]] owned0 heap1 = Done b1 h1 /\
    read_all al_plain [1%nat; 2%nat] b1 h1 = Done (outs, b2) h1 /\
    concat outs = [x01; x02; x03].
Proof.
  eexists _, _.
  assert (write_all al_plain [[x01; x02]; [x03]] owned0 heap1 = Done _ _) as Hw
    by (vm_compute; reflexivity).
  destruct (write_read_roundtrip al_plain [[x01; x02]; [x03]] [1%nat; 2%nat]
              owned0 heap1 _ _ wf_owned0 eq_refl eq_refl Hw eq_refl)
    as (outs & b2 & Hr & Hout).
  exists outs, b2. split; [exact Hw|]. split; [exact Hr|exact Hout].
Defined.

(** C4, as stated, fails: in a buffer that already holds the byte 1, writing
    the body [2] and prepending the header [3] gives the content
    [3; 1; 2], not [3; 2]. *)
Lemma header_after_unread_byte :
  wf heap2 owned1 /\ const_buf_ owned1 = false /\
  exists b1 h1 b2 h2,
    write al_plain [x02] 1 owned1 heap2 = Done b1 h1 /\
    write_head al_plain [x03] 1 b1 h1 = Done b2 h2 /\
    content h2 b2 = [x03; x01; x02] /\
    content h2 b2 <> [x03] ++ [x02].
Proof.
  split; [exact wf_owned1|]. split; [reflexivity|].
  eexists _, _, _, _.
  split; [vm_compute; reflexivity|].
  split; [vm_compute; reflexivity|].
  split; [vm_compute; reflexivity|]. vm_compute. discriminate.
Qed.

(** C4, amended.  For an owned buffer with no unread bytes
    ([gpos_ = ppos_]): after [write] has stored the body and [write_head]
    the header, the content [[gpos_, ppos_)] is the header followed by the
    body.  This holds on both paths of [write_head]: when the margin is
    enough the instance only has its [gpos_] lowered, and when it is not the
    buffer has moved to a block of [max (size + ppos_) (ppos_ + 64)]
    bytes. *)
Theorem header_precedes_body al body hdr b h b1 h1 b2 h2 :
  wf h b -> const_buf_ b = false -> gpos_ b = ppos_ b ->
  write al body (zlen body) b h = Done b1 h1 ->
  write_head al hdr (zlen hdr) b1 h1 = Done b2 h2 ->
  content h2 b2 = hdr ++ body /\
  (zlen hdr <= gpos_ b1 -> b2 = set_gpos_ (gpos_ b1 - zlen hdr) b1) /\
  (gpos_ b1 < zlen hdr ->
     pend_ b2 = Z.max (zlen hdr + ppos_ b1) (ppos_ b1 + RESERVED_HEADER_SPACE)).
Proof.
  intros Hwf _ Hempty Hw Hh.
  destruct (write_content al body b h b1 h1 Hwf Hw) as (Hwf1 & _ & Hc1).
  destruct (write_head_Done_inv al hdr b1 h1 b2 h2 Hwf1 Hh)
    as (_ & _ & _ & _ & Hc2 & _ & Hfit & Hmove).
  assert (content h b = []) as Hnil.
  { apply length_zero_iff_nil. rewrite (length_content h b Hwf). lia. }
  rewrite Hnil in Hc1. simpl in Hc1.
  split; [rewrite Hc2, Hc1; reflexivity|].
  split; [exact Hfit|]. intros Hshort. apply (Hmove Hshort).
Qed.

Lemma owned3_written :
  write al_plain [x0a] (zlen [x0a]) owned0 heap1 = Done owned3 heap3.
Proof. vm_compute. reflexivity. Qed.

Lemma owned4_headed :
  write_head al_plain (repeat x07 100) (zlen (repeat x07 100)) owned3 heap3 =
  Done owned4 heap4.
Proof. vm_compute. reflexivity. Qed.

(** C4 on the fresh owned buffer, on the reallocation path: one body byte
    and a header of 100 bytes. *)
Lemma header_precedes_body_witness :
  content heap4 owned4 = repeat x07 100 ++ [x0a] /\
  (gpos_ owned3 < zlen (repeat x07 100) -> pend_ owned4 = 165).
Proof.
  destruct (header_precedes_body al_plain [x0a] (repeat x07 100)
              owned0 heap1 owned3 heap3 owned4 heap4
              wf_owned0 eq_refl eq_refl owned3_written owned4_headed)
    as (Hc & _ & Hp).
  split; [exact Hc|exact Hp].
Defined.

(** * Further properties of the class *)

(** ** [write], case by case *)

Lemma write_fits_eq al data b h q blk :
  wf h b -> const_buf_ b = false ->
  buf_ b = Npos q -> h !! q = Some blk ->
  ppos_ b + zlen data <= pend_ b ->
  write al data (zlen data) b h =
  Done (set_ppos_ (ppos_ b + zlen data) b)
       (<[q := splice blk (ppos_ b) data]> h).
Proof.
  intros Hwf Hc Hq Hblk Hfit.
  destruct (wf_block h b Hwf) as (q0 & blk0 & Hq0 & Hblk0 & Hlen & Hown).
  rewrite Hq in Hq0. injection Hq0 as <-.
  rewrite Hblk in Hblk0. injection Hblk0 as <-.
  destruct Hwf as [Hh Hg [Ho1 Ho2] _]. specialize (Hown Hc).
  pose proof (zlen_nonneg data) as Hn.
  assert (SizeT.add (zlen data) (ppos_ b) = ppos_ b + zlen data) as Hsum.
  { rewrite SizeTFacts.add_comm. apply SizeTFacts.add_exact; szlia. }
  unfold write. rewrite Hc, Hsum. unfold bind, ASSERT, LOG, ret. simpl negb.
  destruct (Z.ltb_spec (pend_ b) (ppos_ b + zlen data)) as [Hbig|_]; [lia|].
  rewrite Hq, memcpy_in_ok with (blk := blk); [|exact Hblk|lia|lia].
  rewrite SizeTFacts.add_comm, Hsum. reflexivity.
Qed.

Lemma write_grows_eq al data b h q blk :
  wf h b -> const_buf_ b = false ->
  buf_ b = Npos q -> h !! q = Some blk ->
  pend_ b < ppos_ b + zlen data ->
  grants al h (grown b (zlen data)) = true ->
  write al data (zlen data) b h =
  Done (set_ppos_ (ppos_ b + zlen data)
          (set_pend_ (grown b (zlen data))
             (set_buf_ (Npos (grown_at al h q (grown b (zlen data)))) b)))
       (<[grown_at al h q (grown b (zlen data)) :=
            splice (resized al h blk (grown b (zlen data))) (ppos_ b) data]>
          (grown_around al h q (grown b (zlen data)))).
Proof.
  intros Hwf Hc Hq Hblk Hbig Hgr.
  destruct (wf_block h b Hwf) as (q0 & blk0 & Hq0 & Hblk0 & Hlen & Hown).
  rewrite Hq in Hq0. injection Hq0 as <-.
  rewrite Hblk in Hblk0. injection Hblk0 as <-.
  destruct Hwf as [Hh Hg [Ho1 Ho2] _]. specialize (Hown Hc).
  pose proof (zlen_nonneg data) as Hn.
  assert (grown b (zlen data) <= SizeT.PTRDIFF_MAX) as Hmax.
  { apply grants_true in Hgr. tauto. }
  assert (SizeT.add (zlen data) (ppos_ b) = ppos_ b + zlen data) as Hsum.
  { rewrite SizeTFacts.add_comm. apply SizeTFacts.add_exact;
      unfold grown in *; szlia. }
  assert (SizeT.max (ppos_ b + zlen data) (SizeT.add (ppos_ b) GROW_SIZE)
          = grown b (zlen data)) as Hns.
  { rewrite SizeTFacts.max_spec, SizeTFacts.add_exact by szlia. reflexivity. }
  unfold write. rewrite Hc, Hsum. unfold bind, ASSERT, LOG, ret. simpl negb.
  destruct (Z.ltb_spec (pend_ b) (ppos_ b + zlen data)) as [_|?]; [|lia].
  rewrite Hns, Hq. unfold realloc. rewrite Hblk, Hgr.
  unfold grown_at, grown_around.
  set (ns := grown b (zlen data)) in *.
  assert (ppos_ b + zlen data <= zlen (resized al h blk ns)) as Hroom.
  { rewrite zlen_resized; subst ns; unfold grown; lia. }
  destruct (moves al h q ns); simpl.
  - rewrite memcpy_in_ok with (blk := resized al h blk ns);
      [|apply lookup_insert_eq|lia|exact Hroom].
    rewrite insert_insert_eq, SizeTFacts.add_comm, Hsum. reflexivity.
  - rewrite memcpy_in_ok with (blk := resized al h blk ns);
      [|apply lookup_insert_eq|lia|exact Hroom].
    rewrite insert_insert_eq, SizeTFacts.add_comm, Hsum. reflexivity.
Qed.

Lemma write_refused_eq al data b h :
  wf h b -> const_buf_ b = false ->
  zlen data <= SizeT.PTRDIFF_MAX ->
  pend_ b < ppos_ b + zlen data ->
  grants al h (grown b (zlen data)) = false ->
  write al data (zlen data) b h = Fatal "realloc failed" h.
Proof.
  intros Hwf Hc Hobj Hbig Hgr.
  destruct (wf_block h b Hwf) as (q & blk & Hq & Hblk & Hlen & Hown).
  destruct Hwf as [Hh Hg [Ho1 Ho2] _]. specialize (Hown Hc).
  pose proof (zlen_nonneg data) as Hn.
  assert (SizeT.add (zlen data) (ppos_ b) = ppos_ b + zlen data) as Hsum.
  { rewrite SizeTFacts.add_comm. apply SizeTFacts.add_exact; szlia. }
  assert (SizeT.max (ppos_ b + zlen data) (SizeT.add (ppos_ b) GROW_SIZE)
          = grown b (zlen data)) as Hns.
  { rewrite SizeTFacts.max_spec, SizeTFacts.add_exact by szlia. reflexivity. }
  unfold write. rewrite Hc, Hsum. unfold bind, ASSERT, LOG, ret. simpl negb.
  destruct (Z.ltb_spec (pend_ b) (ppos_ b + zlen data)) as [_|?]; [|lia].
  rewrite Hns, Hq. unfold realloc. rewrite Hblk, Hgr. reflexivity.
Qed.

(** ** [write_head], case by case *)

Lemma splice_twice (J d data : list byte) ng :
  zlen data <= ng -> ng + zlen d = zlen J ->
  splice (splice J ng d) (ng - zlen data) data =
  take (Z.to_nat (ng - zlen data)) J ++ data ++ d.
Proof.
  intros Hk HJ. pose proof (zlen_nonneg data). pose proof (zlen_nonneg d).
  assert (splice J ng d = take (Z.to_nat ng) J ++ d) as ->.
  { unfold splice. rewrite (drop_ge J) by (unfold zlen in *; lia).
    rewrite app_nil_r. reflexivity. }
  unfold splice. f_equal; [|f_equal].
  - rewrite take_app_le by (rewrite length_take; unfold zlen in *; lia).
    rewrite take_take. f_equal. lia.
  - apply drop_app_length'. rewrite length_take. unfold zlen in *. lia.
Qed.

Lemma write_head_fits_eq al data b h q blk :
  wf h b -> const_buf_ b = false ->
  buf_ b = Npos q -> h !! q = Some blk ->
  zlen data <= gpos_ b ->
  write_head al data (zlen data) b h =
  Done (set_gpos_ (gpos_ b - zlen data) b)
       (<[q := splice blk (gpos_ b - zlen data) data]> h).
Proof.
  intros Hwf Hc Hq Hblk Hfit.
  destruct (wf_block h b Hwf) as (q0 & blk0 & Hq0 & Hblk0 & Hlen & Hown).
  rewrite Hq in Hq0. injection Hq0 as <-.
  rewrite Hblk in Hblk0. injection Hblk0 as <-.
  destruct Hwf as [Hh Hg [Ho1 Ho2] _]. specialize (Hown Hc).
  pose proof (zlen_nonneg data) as Hn.
  unfold write_head. rewrite Hc. unfold bind at 1 2, ASSERT, WARN, ret.
  simpl negb.
  destruct (Z.ltb_spec (gpos_ b) (zlen data)) as [?|_]; [lia|].
  unfold bind. fields. rewrite SizeTFacts.sub_exact by szlia. rewrite Hq.
  rewrite memcpy_in_ok with (blk := blk); [reflexivity|exact Hblk|lia|lia].
Qed.

Lemma write_head_moves_eq al data b h q blk :
  wf h b -> const_buf_ b = false ->
  buf_ b = Npos q -> h !! q = Some blk ->
  gpos_ b < zlen data ->
  grants al h (head_grown b (zlen data)) = true ->
  write_head al data (zlen data) b h =
  Done {| buf_ := Npos (fresh_block h); const_buf_ := false;
          pend_ := head_grown b (zlen data);
          gpos_ := head_grown b (zlen data) - (ppos_ b - gpos_ b) - zlen data;
          ppos_ := head_grown b (zlen data) |}
       (<[fresh_block h :=
            take (Z.to_nat (head_grown b (zlen data) - (ppos_ b - gpos_ b)
                            - zlen data))
                 (fresh_bytes al h 0 (Z.to_nat (head_grown b (zlen data))))
            ++ data ++ content h b]> (delete q h)).
Proof.
  intros Hwf Hc Hq Hblk Hshort Hgr.
  destruct (wf_block h b Hwf) as (q0 & blk0 & Hq0 & Hblk0 & Hlen & Hown).
  rewrite Hq in Hq0. injection Hq0 as <-.
  rewrite Hblk in Hblk0. injection Hblk0 as <-.
  rewrite (content_eq h b blk) by (rewrite Hq; exact Hblk).
  destruct Hwf as [Hh Hg [Ho1 Ho2] _]. specialize (Hown Hc).
  pose proof (zlen_nonneg data) as Hn.
  assert (SizeT.sub (ppos_ b) (gpos_ b) = ppos_ b - gpos_ b) as Hsub.
  { apply SizeTFacts.sub_exact; szlia. }
  assert (head_grown b (zlen data) <= SizeT.PTRDIFF_MAX) as Hmax.
  { apply grants_true in Hgr. tauto. }
  assert (head_new_size (zlen data) b = head_grown b (zlen data)) as Hns.
  { unfold head_new_size, head_grown in *.
    rewrite SizeTFacts.max_spec, !SizeTFacts.add_exact by szlia. reflexivity. }
  assert (head_new_gpos (zlen data) b
          = head_grown b (zlen data) - (ppos_ b - gpos_ b)) as Hng.
  { unfold head_new_gpos. rewrite Hns, Hsub.
    apply SizeTFacts.sub_exact; unfold head_grown in *; szlia. }
  unfold write_head. rewrite Hc. unfold bind at 1 2, ASSERT, WARN, ret.
  simpl negb.
  destruct (Z.ltb_spec (gpos_ b) (zlen data)) as [_|?]; [|lia].
  rewrite Hng, Hns, Hsub. set (ns := head_grown b (zlen data)) in *.
  assert (ns - (ppos_ b - gpos_ b) >= zlen data + gpos_ b) as Hge.
  { subst ns. unfold head_grown. lia. }
  pose proof (fresh_block_free h) as Hfresh.
  assert (fresh_block h <> q) as Hne by congruence.
  unfold bind at 1 2. unfold malloc. rewrite Hgr. simpl.
  set (qf := fresh_block h) in *.
  set (J := fresh_bytes al h 0 (Z.to_nat ns)).
  assert (zlen J = ns) as HJ.
  { subst J. unfold zlen. rewrite length_fresh_bytes.
    unfold head_grown in *. lia. }
  set (d := take (Z.to_nat (ppos_ b - gpos_ b)) (drop (Z.to_nat (gpos_ b)) blk)).
  assert (zlen d = ppos_ b - gpos_ b) as Hd by (apply zlen_slice; lia).
  unfold bind at 1 2.
  rewrite (memcpy_ok qf _ (buf_ b) _ _ _ blk J);
    [|rewrite Hq; simpl; rewrite lookup_insert_ne by exact Hne; exact Hblk
     |apply lookup_insert_eq|lia..].
  fold d.
  unfold bind at 1. rewrite Hq.
  erewrite free_ok
    by (rewrite !lookup_insert_ne by exact Hne; exact Hblk).
  fields.
  rewrite SizeTFacts.sub_exact by szlia.
  unfold bind.
  erewrite memcpy_in_ok;
    [|rewrite lookup_delete_ne, lookup_insert_eq by congruence; reflexivity
     |lia|rewrite zlen_splice; lia].
  unfold ret. f_equal.
  { unfold set_gpos_, set_pend_, set_ppos_, set_buf_. simpl. rewrite Hc.
    reflexivity. }
  rewrite insert_insert_eq, delete_insert_ne, insert_insert_eq by congruence.
  f_equal. apply splice_twice; lia.
Qed.

Lemma write_head_refused_eq al data b h :
  wf h b -> const_buf_ b = false ->
  zlen data <= SizeT.PTRDIFF_MAX ->
  gpos_ b < zlen data ->
  grants al h (head_grown b (zlen data)) = false ->
  write_head al data (zlen data) b h = Fatal "realloc failed" h.
Proof.
  intros Hwf Hc Hobj Hshort Hgr.
  destruct (wf_block h b Hwf) as (q & blk & Hq & Hblk & Hlen & Hown).
  destruct Hwf as [Hh Hg [Ho1 Ho2] _].
  pose proof (zlen_nonneg data) as Hn.
  assert (head_new_size (zlen data) b = head_grown b (zlen data)) as Hns.
  { unfold head_new_size, head_grown in *.
    rewrite SizeTFacts.max_spec, !SizeTFacts.add_exact by szlia. reflexivity. }
  unfold write_head. rewrite Hc. unfold bind, ASSERT, WARN, ret. simpl negb.
  destruct (Z.ltb_spec (gpos_ b) (zlen data)) as [_|?]; [|lia].
  rewrite Hns. unfold malloc. rewrite Hgr. reflexivity.
Qed.

(** ** How a call can fail *)

Lemma bind_Fatal {A B} (m : M A) (k : A -> M B) h msg h' :
  bind m k h = Fatal msg h' <->
  m h = Fatal msg h' \/ exists a h1, m h = Done a h1 /\ k a h1 = Fatal msg h'.
Proof.
  unfold bind. destruct (m h) as [a h1|msg1 h1|]; split.
  - intros H. right. eauto.
  - intros [?|(a' & h2 & [= <- <-] & H)]; [discriminate|exact H].
  - intros [= <- <-]. left. reflexivity.
  - intros [[= <- <-]|(a' & h2 & ? & _)]; [reflexivity|discriminate].
  - discriminate.
  - intros [?|(a' & h2 & ? & _)]; discriminate.
Qed.

Lemma ASSERT_Fatal c text h msg h' :
  ASSERT c text h = Fatal msg h' -> c = false /\ msg = text /\ h' = h.
Proof. unfold ASSERT. destruct c; [discriminate|]. intros [= <- <-]. auto. Qed.

Lemma memcpy_in_not_Fatal dst doff buf size h msg h' :
  memcpy_in dst doff buf size h <> Fatal msg h'.
Proof.
  unfold memcpy_in, bind, from_caller, ret, undefined, poke.
  destruct ((0 <=? size) && (size <=? zlen buf)); [|discriminate].
  destruct dst as [|q]; [discriminate|].
  destruct (h !! q); [|discriminate].
  destruct (_ && _); discriminate.
Qed.

Lemma memcpy_not_Fatal dst doff src soff n h msg h' :
  memcpy dst doff src soff n h <> Fatal msg h'.
Proof.
  unfold memcpy, bind, peek, poke.
  destruct (deref h src); [|discriminate].
  destruct (_ && _); [|discriminate].
  destruct dst as [|q]; [discriminate|].
  destruct (h !! q); [|discriminate].
  destruct (_ && _); discriminate.
Qed.

Lemma peek_not_Fatal p off n h msg h' : peek p off n h <> Fatal msg h'.
Proof.
  unfold peek. destruct (deref h p); [|discriminate].
  destruct (_ && _); discriminate.
Qed.

Lemma free_not_Fatal p h msg h' : free p h <> Fatal msg h'.
Proof.
  unfold free, ret. destruct p as [|q]; [discriminate|].
  destruct (h !! q); discriminate.
Qed.

(** An allocation that comes back as [NULL] has changed nothing. *)
Lemma malloc_outcome al n h :
  malloc al n h = Done NULL h \/
  exists q h', malloc al n h = Done (Npos q) h'.
Proof. unfold malloc. destruct (grants al h n); eauto. Qed.

Lemma realloc_outcome al p n h :
  realloc al p n h = Undefined \/ realloc al p n h = Done NULL h \/
  exists q h', realloc al p n h = Done (Npos q) h'.
Proof.
  destruct p as [|q]; simpl.
  - right. apply malloc_outcome.
  - destruct (h !! q); [|auto]. right.
    destruct (grants al h n); [|auto]. right.
    destruct (moves al h q n); eauto.
Qed.

Lemma realloc_null al p n h h1 :
  realloc al p n h = Done NULL h1 -> h1 = h.
Proof.
  intros H. destruct (realloc_outcome al p n h) as [E|[E|(q & h' & E)]];
    rewrite E in H; [discriminate| |discriminate].
  injection H as <-. reflexivity.
Qed.

Lemma malloc_null al n h h1 :
  malloc al n h = Done NULL h1 -> h1 = h.
Proof. apply (realloc_null al NULL). Qed.

Lemma not_null_false (p : N) : negb (p =? NULL)%N = false -> p = NULL.
Proof. intros H. apply negb_false_iff, N.eqb_eq in H. exact H. Qed.

(** A call that ends in a failed [ASSERT] has not touched the heap: the
    ownership check comes before any copy, and a refused allocation leaves
    the old block as it was.  [write] and [write_head] fail only on a
    borrowed buffer or on a refused allocation, [read] only on its bounds
    check. *)
Theorem failure_is_atomic al buf size b h msg h' :
  (write al buf size b h = Fatal msg h' ->
     h' = h /\
     (const_buf_ b = true /\
        msg = "writing into a const buffer is not allowed."%string \/
      const_buf_ b = false /\ msg = "realloc failed"%string)) /\
  (write_head al buf size b h = Fatal msg h' ->
     h' = h /\
     (const_buf_ b = true /\
        msg = "writing into a const buffer is not allowed."%string \/
      const_buf_ b = false /\ msg = "realloc failed"%string)) /\
  (read al size b h = Fatal msg h' ->
     h' = h /\ msg = "reading beyond the array"%string /\
     ppos_ b < SizeT.add (gpos_ b) size).
Proof.
  split; [|split].
  - unfold write. intros H.
    apply bind_Fatal in H as [H|([] & h1 & Ha & H)].
    { apply ASSERT_Fatal in H as (Hc & -> & ->).
      apply negb_false_iff in Hc. auto. }
    apply ASSERT_Done in Ha as [Hc ->]. apply negb_true_iff in Hc.
    apply bind_Fatal in H as [H|(b1 & h2 & _ & H)].
    + destruct (pend_ b <? SizeT.add size (ppos_ b)); [|discriminate].
      apply bind_Fatal in H as [H|([] & h2 & [= <-] & H)]; [discriminate|].
      apply bind_Fatal in H as [H|(p & h3 & Hre & H)].
      { destruct (realloc_outcome al (buf_ b)
                    (SizeT.max (SizeT.add size (ppos_ b))
                               (SizeT.add (ppos_ b) GROW_SIZE)) h)
          as [E|[E|(q & h4 & E)]]; rewrite E in H; discriminate. }
      apply bind_Fatal in H as [H|(u & h4 & _ & H)]; [|discriminate].
      apply ASSERT_Fatal in H as (Hp & -> & ->).
      apply not_null_false in Hp. subst p.
      apply realloc_null in Hre. auto.
    + apply bind_Fatal in H as [H|(u & h3 & _ & H)]; [|discriminate].
      exfalso. exact (memcpy_in_not_Fatal _ _ _ _ _ _ _ H).
  - unfold write_head. intros H.
    apply bind_Fatal in H as [H|([] & h1 & Ha & H)].
    { apply ASSERT_Fatal in H as (Hc & -> & ->).
      apply negb_false_iff in Hc. auto. }
    apply ASSERT_Done in Ha as [Hc ->]. apply negb_true_iff in Hc.
    apply bind_Fatal in H as [H|(b1 & h2 & _ & H)].
    + destruct (gpos_ b <? size); [|discriminate].
      apply bind_Fatal in H as [H|([] & h2 & [= <-] & H)]; [discriminate|].
      apply bind_Fatal in H as [H|(p & h3 & Hm & H)].
      { destruct (malloc_outcome al (head_new_size size b) h)
          as [E|(q & h4 & E)]; rewrite E in H; discriminate. }
      apply bind_Fatal in H as [H|(u & h4 & Ha & H)].
      { apply ASSERT_Fatal in H as (Hp & -> & ->).
        apply not_null_false in Hp. subst p.
        apply malloc_null in Hm. auto. }
      exfalso.
      apply bind_Fatal in H as [H|(u1 & h5 & _ & H)];
        [exact (memcpy_not_Fatal _ _ _ _ _ _ _ _ H)|].
      apply bind_Fatal in H as [H|(u2 & h6 & _ & H)];
        [exact (free_not_Fatal _ _ _ _ H)|discriminate].
    + apply bind_Fatal in H as [H|(u & h3 & _ & H)]; [|discriminate].
      exfalso. exact (memcpy_in_not_Fatal _ _ _ _ _ _ _ H).
  - rewrite read_unfold. intros H.
    apply bind_Fatal in H as [H|([] & h1 & _ & H)].
    + apply ASSERT_Fatal in H as (Hc & -> & ->).
      apply Z.leb_gt in Hc. auto.
    + exfalso. apply bind_Fatal in H as [H|(d & h2 & _ & H)];
        [exact (peek_not_Fatal _ _ _ _ _ _ H)|discriminate].
Qed.

(** [failure_is_atomic] on the view of the ten-byte array: a write and a
    read of eleven bytes. *)
Lemma failure_is_atomic_witness :
  write al_plain [x01] 1 view0 heap1 =
    Fatal "writing into a const buffer is not allowed." heap1 /\
  read al_plain 11 view0 heap1 = Fatal "reading beyond the array" heap1 /\
  heap1 = heap1.
Proof.
  split; [reflexivity|]. split; [reflexivity|].
  destruct (failure_is_atomic al_plain [x01] 11 view0 heap1
              "reading beyond the array" heap1) as (_ & _ & Hr).
  symmetry. apply Hr. reflexivity.
Defined.

(** ** Every outcome of a call on a well-formed buffer *)

(** [write] with the bytes of an object of the address space never runs
    into undefined behaviour.  It fails on a borrowed buffer, it fails with
    "realloc failed" exactly when the bytes do not fit and the allocator
    refuses the larger block, and in every other case it returns a
    well-formed buffer whose content is the old content followed by the
    new bytes. *)
Theorem write_outcomes al data b h :
  wf h b -> zlen data <= SizeT.PTRDIFF_MAX ->
  (const_buf_ b = true /\
   write al data (zlen data) b h =
     Fatal "writing into a const buffer is not allowed." h) \/
  (const_buf_ b = false /\ pend_ b < ppos_ b + zlen data /\
   grants al h (Z.max (ppos_ b + zlen data) (ppos_ b + GROW_SIZE)) = false /\
   write al data (zlen data) b h = Fatal "realloc failed" h) \/
  (const_buf_ b = false /\
   (ppos_ b + zlen data <= pend_ b \/
    grants al h (Z.max (ppos_ b + zlen data) (ppos_ b + GROW_SIZE)) = true) /\
   exists b' h',
     write al data (zlen data) b h = Done b' h' /\
     wf h' b' /\ content h' b' = content h b ++ data).
Proof.
  intros Hwf Hobj. fold (grown b (zlen data)).
  destruct (const_buf_ b) eqn:Hc.
  { left. split; [reflexivity|].
    unfold write, bind, ASSERT. rewrite Hc. reflexivity. }
  right.
  destruct (Z.le_gt_cases (ppos_ b + zlen data) (pend_ b)) as [Hfit|Hbig].
  - right. split; [reflexivity|]. split; [left; exact Hfit|].
    destruct (write_total al data b h Hwf Hc (or_introl Hfit)) as (b' & h' & Hw).
    exists b', h'. split; [exact Hw|].
    destruct (write_content al data b h b' h' Hwf Hw) as (Hwf' & _ & Hcont).
    auto.
  - destruct (grants al h (grown b (zlen data))) eqn:Hgr.
    + right. split; [reflexivity|]. split; [right; reflexivity|].
      destruct (write_total al data b h Hwf Hc (or_intror Hgr))
        as (b' & h' & Hw).
      exists b', h'. split; [exact Hw|].
      destruct (write_content al data b h b' h' Hwf Hw) as (Hwf' & _ & Hcont).
      auto.
    + left. split; [reflexivity|]. split; [exact Hbig|].
      split; [reflexivity|].
      apply write_refused_eq; assumption.
Qed.

(** [write_outcomes] on the fresh owned buffer and 100 bytes, once under
    an allocator that refuses every request and once under one that
    refuses none. *)
Lemma write_outcomes_witness :
  wf heap1 owned0 /\
  write {| refuses := fun _ _ => true; moves := moves al_plain;
           junk := junk al_plain |}
        (repeat x41 100) 100 owned0 heap1 = Fatal "realloc failed" heap1 /\
  exists b' h', write al_plain (repeat x41 100) 100 owned0 heap1 = Done b' h' /\
    content h' b' = repeat x41 100.
Proof.
  assert (zlen (repeat x41 100) <= SizeT.PTRDIFF_MAX) as Hobj
    by (vm_compute; discriminate).
  split; [exact wf_owned0|]. split.
  - destruct (write_outcomes
                {| refuses := fun _ _ => true; moves := moves al_plain;
                   junk := junk al_plain |}
                (repeat x41 100) owned0 heap1 wf_owned0 Hobj)
      as [[Hc _]|[(_ & _ & _ & Hw)|(_ & [Hfit|Hgr] & _)]].
    + discriminate Hc.
    + exact Hw.
    + vm_compute in Hfit. exfalso. apply Hfit. reflexivity.
    + discriminate Hgr.
  - destruct (write_outcomes al_plain (repeat x41 100) owned0 heap1
                wf_owned0 Hobj)
      as [[Hc _]|[(_ & _ & Hgr & _)|(_ & _ & b' & h' & Hw & _ & Hcont)]].
    + discriminate Hc.
    + discriminate Hgr.
    + exists b', h'. split; [exact Hw|exact Hcont].
Defined.

(** [write_head] with the bytes of an object of the address space never
    runs into undefined behaviour either.  It fails on a borrowed buffer,
    it fails with "realloc failed" exactly when the margin is too small and
    the allocator refuses the new block, and in every other case it returns
    a well-formed buffer whose content is the header followed by the old
    content. *)
Theorem write_head_outcomes al data b h :
  wf h b -> zlen data <= SizeT.PTRDIFF_MAX ->
  (const_buf_ b = true /\
   write_head al data (zlen data) b h =
     Fatal "writing into a const buffer is not allowed." h) \/
  (const_buf_ b = false /\ gpos_ b < zlen data /\
   grants al h (Z.max (zlen data + ppos_ b)
                      (ppos_ b + RESERVED_HEADER_SPACE)) = false /\
   write_head al data (zlen data) b h = Fatal "realloc failed" h) \/
  (const_buf_ b = false /\
   (zlen data <= gpos_ b \/
    grants al h (Z.max (zlen data + ppos_ b)
                       (ppos_ b + RESERVED_HEADER_SPACE)) = true) /\
   exists b' h',
     write_head al data (zlen data) b h = Done b' h' /\
     wf h' b' /\ content h' b' = data ++ content h b).
Proof.
  intros Hwf Hobj. fold (head_grown b (zlen data)).
  destruct (const_buf_ b) eqn:Hc.
  { left. split; [reflexivity|].
    unfold write_head, bind, ASSERT. rewrite Hc. reflexivity. }
  right.
  destruct (Z.le_gt_cases (zlen data) (gpos_ b)) as [Hfit|Hshort].
  - right. split; [reflexivity|]. split; [left; exact Hfit|].
    destruct (write_head_total al data b h Hwf Hc (or_introl Hfit))
      as (b' & h' & Hw).
    exists b', h'. split; [exact Hw|].
    destruct (write_head_Done_inv al data b h b' h' Hwf Hw)
      as (_ & Hwf' & _ & _ & Hcont & _).
    auto.
  - destruct (grants al h (head_grown b (zlen data))) eqn:Hgr.
    + right. split; [reflexivity|]. split; [right; reflexivity|].
      destruct (write_head_total al data b h Hwf Hc (or_intror Hgr))
        as (b' & h' & Hw).
      exists b', h'. split; [exact Hw|].
      destruct (write_head_Done_inv al data b h b' h' Hwf Hw)
        as (_ & Hwf' & _ & _ & Hcont & _).
      auto.
    + left. split; [reflexivity|]. split; [lia|].
      split; [reflexivity|].
      apply write_head_refused_eq; [assumption..|lia|assumption].
Qed.

(** [write_head_outcomes] on the fresh owned buffer and two bytes. *)
Lemma write_head_outcomes_witness :
  wf heap1 owned0 /\
  exists b' h',
    write_head al_plain [x01; x02] 2 owned0 heap1 = Done b' h' /\
    content h' b' = [x01; x02].
Proof.
  assert (zlen [x01; x02] <= SizeT.PTRDIFF_MAX) as Hobj
    by (vm_compute; discriminate).
  split; [exact wf_owned0|].
  destruct (write_head_outcomes al_plain [x01; x02] owned0 heap1
              wf_owned0 Hobj)
    as [[Hc _]|[(_ & _ & Hgr & _)|(_ & _ & b' & h' & Hw & _ & Hcont)]].
  - discriminate Hc.
  - discriminate Hgr.
  - exists b', h'. split; [exact Hw|exact Hcont].
Defined.

(** [read], for every [size_t] value of [size], on a well-formed buffer:
    it returns the next [size] unread bytes when they are there, it fails in
    its [ASSERT] when they are not and [gpos_ + size] is at most
    [SIZE_MAX], and it is undefined behaviour when that sum wraps. *)
Theorem read_outcomes al n b h :
  wf h b -> 0 <= n <= SizeT.SIZE_MAX ->
  (gpos_ b + n <= ppos_ b /\
   read al n b h =
     Done (take (Z.to_nat n) (content h b), set_gpos_ (gpos_ b + n) b) h) \/
  (ppos_ b < gpos_ b + n <= SizeT.SIZE_MAX /\
   read al n b h = Fatal "reading beyond the array" h) \/
  (SizeT.SIZE_MAX < gpos_ b + n /\ read al n b h = Undefined).
Proof.
  intros Hwf Hn. pose proof Hwf as [_ Hg [Ho1 Ho2] _].
  destruct (Z.le_gt_cases (gpos_ b + n) (ppos_ b)) as [Hfit|Hbig].
  - left. split; [exact Hfit|].
    rewrite (read_ok al n b h Hwf) by lia. do 2 f_equal.
    unfold content. rewrite take_take. f_equal. lia.
  - right. destruct (Z.le_gt_cases (gpos_ b + n) SizeT.SIZE_MAX) as [Hin|Hout].
    + left. split; [lia|]. apply read_beyond; szlia.
    + right. split; [lia|]. apply read_wrapped; [exact Hwf|szlia..].
Qed.

(** [read_outcomes] on the view of the ten-byte array and four bytes. *)
Lemma read_outcomes_witness :
  wf heap1 view0 /\
  read al_plain 4 view0 heap1 =
    Done ([x01; x02; x03; x04], set_gpos_ 4 view0) heap1.
Proof.
  assert (0 <= 4 <= SizeT.SIZE_MAX) as Hn by (vm_compute; split; discriminate).
  split; [exact wf_view0|].
  destruct (read_outcomes al_plain 4 view0 heap1 wf_view0 Hn)
    as [(_ & Hr)|[(Hlt & _)|(Hlt & _)]].
  - exact Hr.
  - vm_compute in Hlt. destruct Hlt as [Hlt _]. discriminate Hlt.
  - vm_compute in Hlt. discriminate Hlt.
Defined.

(** ** Construction, rebinding and destruction *)

(** When [malloc] grants the 128 bytes, [StreamBuffer()] returns a
    well-formed owned buffer with no unread bytes, [gpos_ = ppos_ = 64] and
    [pend_ = 128]; every block that existed before is still there, and
    destroying the buffer right away gives back the heap of before. *)
Theorem constructor_yields_empty_buffer al h :
  heap_ok h ->
  grants al h (RESERVED_HEADER_SPACE * 2) = true ->
  exists b h',
    StreamBuffer_owned al h = Done b h' /\
    wf h' b /\ const_buf_ b = false /\
    content h' b = [] /\ get_size b h' = Done (0, b) h' /\
    gpos_ b = 64 /\ ppos_ b = 64 /\ pend_ b = 128 /\
    (forall r x, h !! r = Some x -> h' !! r = Some x) /\
    StreamBuffer_destroy b h' = Done tt h.
Proof.
  intros Hh Hgr.
  pose proof (fresh_block_free h) as Hfresh.
  assert (StreamBuffer_owned al h =
          Done {| buf_ := Npos (fresh_block h); const_buf_ := false;
                  pend_ := RESERVED_HEADER_SPACE * 2;
                  gpos_ := RESERVED_HEADER_SPACE;
                  ppos_ := RESERVED_HEADER_SPACE |}
               (<[fresh_block h :=
                    fresh_bytes al h 0 (Z.to_nat (RESERVED_HEADER_SPACE * 2))]> h))
    as Hctor.
  { unfold StreamBuffer_owned, bind, malloc. rewrite Hgr. reflexivity. }
  eexists _, _. split; [exact Hctor|].
  destruct (StreamBuffer_owned_wf al h _ _ Hh Hctor) as (Hwf & _);
    [discriminate|].
  split; [exact Hwf|]. split; [reflexivity|].
  split; [unfold content; simpl; rewrite Z.sub_diag; reflexivity|].
  split; [reflexivity|]. split; [reflexivity|]. split; [reflexivity|].
  split; [reflexivity|]. split.
  - intros r x Hr. rewrite lookup_insert_ne by congruence. exact Hr.
  - unfold StreamBuffer_destroy. simpl. rewrite lookup_insert_eq.
    rewrite delete_insert_id by exact Hfresh. reflexivity.
Qed.

(** [constructor_yields_empty_buffer] on [heap0]. *)
Lemma constructor_yields_empty_buffer_witness :
  heap_ok heap0 /\
  exists b h', StreamBuffer_owned al_plain heap0 = Done b h' /\
    content h' b = [] /\ StreamBuffer_destroy b h' = Done tt heap0.
Proof.
  split; [exact heap_ok_heap0|].
  destruct (constructor_yields_empty_buffer al_plain heap0 heap_ok_heap0 eq_refl)
    as (b & h' & Hc & _ & _ & Hnil & _ & _ & _ & _ & _ & Hd).
  exists b, h'. split; [exact Hc|]. split; [exact Hnil|exact Hd].
Defined.

(** [StreamBuffer()] does not check what [malloc] returns.  When the
    allocation is refused the constructor still returns, with
    [buf_ = NULL]; [get_size] answers 0 as for a good buffer, but a [write]
    or a [write_head] of up to 64 bytes, which needs no reallocation, copies
    to [NULL + offset]: undefined behaviour, not a failed [ASSERT]. *)
Theorem failed_construction_is_unchecked al h :
  grants al h (RESERVED_HEADER_SPACE * 2) = false ->
  exists b,
    StreamBuffer_owned al h = Done b h /\ buf_ b = NULL /\
    get_size b h = Done (0, b) h /\
    (forall data, zlen data <= RESERVED_HEADER_SPACE ->
       write al data (zlen data) b h = Undefined /\
       write_head al data (zlen data) b h = Undefined) /\
    StreamBuffer_destroy b h = Done tt h.
Proof.
  intros Hgr. eexists. split.
  { unfold StreamBuffer_owned, bind, malloc. rewrite Hgr. reflexivity. }
  split; [reflexivity|]. split; [reflexivity|]. split; [|reflexivity].
  intros data Hn. pose proof (zlen_nonneg data) as H0. split.
  - unfold write, bind, ASSERT, ret. simpl.
    rewrite SizeTFacts.add_exact by szlia.
    destruct (Z.ltb_spec (RESERVED_HEADER_SPACE * 2)
                (zlen data + RESERVED_HEADER_SPACE)); [szlia|].
    unfold memcpy_in, bind. rewrite from_caller_all. reflexivity.
  - unfold write_head, bind, ASSERT, ret. simpl.
    destruct (Z.ltb_spec RESERVED_HEADER_SPACE (zlen data)); [lia|].
    simpl. unfold memcpy_in, bind. rewrite from_caller_all. reflexivity.
Qed.

(** [failed_construction_is_unchecked] under an allocator that refuses
    every request. *)
Lemma failed_construction_is_unchecked_witness :
  exists b,
    StreamBuffer_owned {| refuses := fun _ _ => true; moves := moves al_plain;
                          junk := junk al_plain |} heap0 = Done b heap0 /\
    buf_ b = NULL.
Proof.
  destruct (failed_construction_is_unchecked
              {| refuses := fun _ _ => true; moves := moves al_plain;
                 junk := junk al_plain |} heap0 eq_refl)
    as (b & Hc & Hp & _).
  exists b. split; [exact Hc|exact Hp].
Defined.

(** A view over [size] bytes, whether made by [StreamBuffer(buf, size)] or
    by [set_buf] on any instance, reports [size] unread bytes; one [read] of
    [size] bytes returns exactly the first [size] bytes of the region and
    leaves the heap alone; after it [get_size] is 0.  A further [read] of
    [n] bytes, for every [size_t] value [n] of at least one, fails in the
    [ASSERT] when [size + n] is at most [SIZE_MAX], and is undefined
    behaviour when that sum wraps: the [ASSERT] then passes and the copy
    leaves the region. *)
Theorem view_reads_the_region al h buf size blk b0 :
  heap_ok h -> deref h buf = Some blk -> 0 <= size <= zlen blk ->
  exists v v',
    StreamBuffer_borrowed buf size h = Done v h /\
    set_buf buf size b0 h = Done v h /\
    const_buf_ v = true /\ get_size v h = Done (size, v) h /\
    read al size v h = Done (take (Z.to_nat size) blk, v') h /\
    get_size v' h = Done (0, v') h /\
    forall n, 0 < n <= SizeT.SIZE_MAX ->
      (size + n <= SizeT.SIZE_MAX ->
         read al n v' h = Fatal "reading beyond the array" h) /\
      (SizeT.SIZE_MAX < size + n -> read al n v' h = Undefined).
Proof.
  intros Hh Hblk Hsize.
  assert (zlen blk <= SizeT.PTRDIFF_MAX) as Hmax.
  { destruct buf as [|q]; [discriminate|]. exact (Hh q blk Hblk). }
  set (v := {| buf_ := buf; const_buf_ := true; pend_ := size;
               gpos_ := 0; ppos_ := size |}).
  assert (wf h v) as Hwf.
  { constructor; simpl; [exact Hh|lia|unfold ordered; simpl; lia|].
    exists blk. simpl. split; [exact Hblk|lia]. }
  assert (wf h (set_gpos_ size v)) as Hwf'.
  { constructor; simpl; [exact Hh|lia|unfold ordered; simpl; lia|].
    exists blk. simpl. split; [exact Hblk|lia]. }
  exists v, (set_gpos_ size v).
  split; [reflexivity|]. split; [reflexivity|]. split; [reflexivity|].
  split.
  { unfold get_size, ret. simpl. rewrite SizeTFacts.sub_exact by szlia.
    rewrite Z.sub_0_r. reflexivity. }
  split.
  { rewrite (read_ok al size v h Hwf) by (simpl; lia).
    unfold region. simpl. rewrite Hblk. reflexivity. }
  split.
  { unfold get_size, ret. simpl. rewrite SizeTFacts.sub_exact by szlia.
    rewrite Z.sub_diag. reflexivity. }
  intros n Hn. split.
  - intros Hin. apply read_beyond; simpl; szlia.
  - intros Hout. apply (read_wrapped al n _ h Hwf'); simpl; szlia.
Qed.

(** [view_reads_the_region] on the ten-byte array, rebinding the fresh
    owned buffer: a read of one more byte fails, a read of [SIZE_MAX - 9]
    more bytes wraps. *)
Lemma view_reads_the_region_witness :
  heap_ok heap1 /\
  exists v v',
    set_buf 1 10 owned0 heap1 = Done v heap1 /\
    read al_plain 10 v heap1 = Done (ten_bytes, v') heap1 /\
    read al_plain 1 v' heap1 = Fatal "reading beyond the array" heap1 /\
    read al_plain (SizeT.SIZE_MAX - 9) v' heap1 = Undefined.
Proof.
  assert (heap_ok heap1) as Hh by (destruct wf_view0; assumption).
  split; [exact Hh|].
  destruct (view_reads_the_region al_plain heap1 1 10 ten_bytes owned0 Hh eq_refl)
    as (v & v' & _ & Hs & _ & _ & Hr & _ & Hf).
  { vm_compute. split; discriminate. }
  exists v, v'. split; [exact Hs|]. split; [exact Hr|]. split.
  - apply (Hf 1); vm_compute; [split; [reflexivity|discriminate]|discriminate].
  - apply (Hf (SizeT.SIZE_MAX - 9));
      vm_compute; [split; [reflexivity|discriminate]|reflexivity].
Defined.

(** [set_buf] does not release what the instance owned.  Destroying an
    owned buffer frees its block; rebinding it first and destroying it then
    leaves the heap as it was, the block still allocated and no instance
    pointing to it. *)
Theorem rebinding_leaks_owned_block h b buf size :
  wf h b -> const_buf_ b = false ->
  exists q blk,
    buf_ b = Npos q /\ h !! q = Some blk /\
    StreamBuffer_destroy b h = Done tt (delete q h) /\
    (v <- set_buf buf size b ;; StreamBuffer_destroy v) h = Done tt h /\
    (delete q h) !! q = None.
Proof.
  intros Hwf Hc.
  destruct (wf_block h b Hwf) as (q & blk & Hq & Hblk & _).
  exists q, blk. split; [exact Hq|]. split; [exact Hblk|]. split.
  - unfold StreamBuffer_destroy. rewrite Hc, Hq. simpl.
    apply (free_ok q h blk Hblk).
  - split; [reflexivity|apply lookup_delete_eq].
Qed.

(** [rebinding_leaks_owned_block] on the fresh owned buffer: its 128-byte
    block is still in the heap. *)
Lemma rebinding_leaks_owned_block_witness :
  wf heap1 owned0 /\
  (v <- set_buf 1 10 owned0 ;; StreamBuffer_destroy v) heap1 = Done tt heap1 /\
  heap1 !! 2%positive = Some (repeat x00 128).
Proof.
  split; [exact wf_owned0|].
  destruct (rebinding_leaks_owned_block heap1 owned0 1 10 wf_owned0 eq_refl)
    as (q & blk & _ & _ & _ & Hleak & _).
  split; [exact Hleak|reflexivity].
Defined.

(** ** The storage pointer across a call *)

Lemma lookup_splice_out (blk data : list byte) off (i : nat) :
  0 <= off -> off + zlen data <= zlen blk ->
  Z.of_nat i < off \/ off + zlen data <= Z.of_nat i ->
  splice blk off data !! i = blk !! i.
Proof.
  unfold splice, zlen. intros Hoff Hfit [Hlt|Hge].
  - rewrite lookup_app_l by (rewrite length_take; lia).
    apply lookup_take_lt. lia.
  - rewrite lookup_app_r by (rewrite length_take; lia).
    rewrite lookup_app_r by (rewrite length_take; lia).
    rewrite lookup_drop, length_take. f_equal. lia.
Qed.

Lemma lookup_splice_in (blk data : list byte) off (i : nat) :
  0 <= off -> off + zlen data <= zlen blk ->
  splice blk off data !! (Z.to_nat off + i)%nat = data !! i \/
  (length data <= i)%nat.
Proof.
  unfold splice, zlen. intros Hoff Hfit.
  destruct (decide (i < length data)%nat) as [Hi|Hi]; [left|right; lia].
  rewrite lookup_app_r by (rewrite length_take; lia).
  rewrite lookup_app_l by (rewrite length_take; lia).
  f_equal. rewrite length_take. lia.
Qed.

(** A [write] whose bytes fit does not go to the allocator and does not
    move the buffer: the result is the same under every allocator, the
    pointer [get_buf] returns and [pend_] are the same, no other block of
    the heap changes, and inside the buffer's block only the offsets
    [[ppos_, ppos_ + n)] change, to the bytes written. *)
Theorem write_in_place al al' data b h :
  wf h b -> const_buf_ b = false ->
  ppos_ b + zlen data <= pend_ b ->
  exists b' h',
    write al data (zlen data) b h = Done b' h' /\
    write al' data (zlen data) b h = Done b' h' /\
    get_buf b' h' = Done (buf_ b, b') h' /\
    b' = set_ppos_ (ppos_ b + zlen data) b /\
    (forall r, Npos r <> buf_ b -> h' !! r = h !! r) /\
    (forall i : nat,
       Z.of_nat i < ppos_ b \/ ppos_ b + zlen data <= Z.of_nat i ->
       region h' b' !! i = region h b !! i) /\
    (forall i : nat, (i < length data)%nat ->
       region h' b' !! (Z.to_nat (ppos_ b) + i)%nat = data !! i).
Proof.
  intros Hwf Hc Hfit.
  destruct (wf_block h b Hwf) as (q & blk & Hq & Hblk & Hlen & Hown).
  pose proof Hwf as [_ Hg [Ho1 Ho2] _]. specialize (Hown Hc).
  eexists _, _.
  split; [exact (write_fits_eq al data b h q blk Hwf Hc Hq Hblk Hfit)|].
  split; [exact (write_fits_eq al' data b h q blk Hwf Hc Hq Hblk Hfit)|].
  split; [reflexivity|]. split; [reflexivity|].
  split; [|split].
  - intros r Hr. apply lookup_insert_ne. congruence.
  - intros i Hi. unfold region. simpl. rewrite Hq. simpl.
    rewrite lookup_insert_eq, Hblk. simpl.
    apply lookup_splice_out; lia.
  - intros i Hi. unfold region. simpl. rewrite Hq. simpl.
    rewrite lookup_insert_eq. simpl.
    destruct (lookup_splice_in blk data (ppos_ b) i) as [E|E]; [lia|lia| |lia].
    exact E.
Qed.

(** [write_in_place] on the fresh owned buffer and two bytes. *)
Lemma write_in_place_witness :
  wf heap1 owned0 /\
  exists b' h',
    write al_plain [x0a; x0b] 2 owned0 heap1 = Done b' h' /\
    get_buf b' h' = Done (2%N, b') h'.
Proof.
  split; [exact wf_owned0|].
  destruct (write_in_place al_plain al_plain [x0a; x0b] owned0 heap1
              wf_owned0 eq_refl)
    as (b' & h' & Hw & _ & Hp & _).
  { vm_compute. discriminate. }
  exists b', h'. split; [exact Hw|exact Hp].
Defined.

(** A [write] that has to grow the buffer leaves the pointer as it is only
    when [realloc] resizes in place.  When [realloc] moves the block, the
    pointer [get_buf] returned before the call no longer points to
    allocated memory.  Either way no other block of the heap changes. *)
Theorem write_growth_and_pointer al data b h q :
  wf h b -> const_buf_ b = false -> buf_ b = Npos q ->
  pend_ b < ppos_ b + zlen data ->
  grants al h (Z.max (ppos_ b + zlen data) (ppos_ b + GROW_SIZE)) = true ->
  exists b' h',
    write al data (zlen data) b h = Done b' h' /\
    (moves al h q (Z.max (ppos_ b + zlen data) (ppos_ b + GROW_SIZE)) = false ->
       buf_ b' = buf_ b) /\
    (moves al h q (Z.max (ppos_ b + zlen data) (ppos_ b + GROW_SIZE)) = true ->
       buf_ b' <> buf_ b /\ deref h' (buf_ b) = None) /\
    (forall r, Npos r <> buf_ b -> Npos r <> buf_ b' -> h' !! r = h !! r).
Proof.
  intros Hwf Hc Hq Hbig Hgr. fold (grown b (zlen data)) in *.
  destruct (wf_block h b Hwf) as (q0 & blk & Hq0 & Hblk & _).
  rewrite Hq in Hq0. injection Hq0 as <-.
  pose proof (fresh_block_free h) as Hfresh.
  assert (fresh_block h <> q) as Hne by congruence.
  eexists _, _.
  split; [exact (write_grows_eq al data b h q blk Hwf Hc Hq Hblk Hbig Hgr)|].
  unfold grown_at, grown_around. simpl.
  destruct (moves al h q (grown b (zlen data))).
  - split; [discriminate|]. split.
    + intros _. rewrite Hq. split; [congruence|]. simpl.
      rewrite lookup_insert_ne, lookup_delete_eq by exact Hne. reflexivity.
    + intros r Hr Hr'. rewrite Hq in Hr.
      rewrite lookup_insert_ne, lookup_delete_ne by congruence. reflexivity.
  - split; [intros _; symmetry; exact Hq|]. split; [discriminate|].
    intros r Hr Hr'. rewrite Hq in Hr.
    rewrite lookup_insert_ne by congruence. reflexivity.
Qed.

(** [write_growth_and_pointer] on the fresh owned buffer and 100 bytes,
    under an allocator that always moves the block. *)
Lemma write_growth_and_pointer_witness :
  wf heap1 owned0 /\
  exists b' h',
    write al_plain (repeat x41 100) 100 owned0 heap1 = Done b' h' /\
    buf_ b' <> buf_ owned0 /\ deref h' (buf_ owned0) = None.
Proof.
  split; [exact wf_owned0|].
  destruct (write_growth_and_pointer al_plain (repeat x41 100) owned0 heap1 2
              wf_owned0 eq_refl eq_refl)
    as (b' & h' & Hw & _ & Hm & _).
  { vm_compute. reflexivity. }
  { reflexivity. }
  exists b', h'. split; [exact Hw|]. apply Hm. reflexivity.
Defined.

(** A [write_head] that fits the margin does not go to the allocator and
    does not move the buffer: the result is the same under every allocator,
    only [gpos_] changes in the instance, no other block of the heap
    changes, and inside the buffer's block only the offsets
    [[gpos_ - n, gpos_)] change, to the header bytes. *)
Theorem write_head_in_place al al' data b h :
  wf h b -> const_buf_ b = false ->
  zlen data <= gpos_ b ->
  exists b' h',
    write_head al data (zlen data) b h = Done b' h' /\
    write_head al' data (zlen data) b h = Done b' h' /\
    get_buf b' h' = Done (buf_ b, b') h' /\
    b' = set_gpos_ (gpos_ b - zlen data) b /\
    (forall r, Npos r <> buf_ b -> h' !! r = h !! r) /\
    (forall i : nat,
       Z.of_nat i < gpos_ b - zlen data \/ gpos_ b <= Z.of_nat i ->
       region h' b' !! i = region h b !! i) /\
    (forall i : nat, (i < length data)%nat ->
       region h' b' !! (Z.to_nat (gpos_ b - zlen data) + i)%nat = data !! i).
Proof.
  intros Hwf Hc Hfit.
  destruct (wf_block h b Hwf) as (q & blk & Hq & Hblk & Hlen & Hown).
  pose proof Hwf as [_ Hg [Ho1 Ho2] _]. specialize (Hown Hc).
  pose proof (zlen_nonneg data) as Hn.
  eexists _, _.
  split; [exact (write_head_fits_eq al data b h q blk Hwf Hc Hq Hblk Hfit)|].
  split; [exact (write_head_fits_eq al' data b h q blk Hwf Hc Hq Hblk Hfit)|].
  split; [reflexivity|]. split; [reflexivity|].
  split; [|split].
  - intros r Hr. apply lookup_insert_ne. congruence.
  - intros i Hi. unfold region. simpl. rewrite Hq. simpl.
    rewrite lookup_insert_eq, Hblk. simpl.
    apply lookup_splice_out; lia.
  - intros i Hi. unfold region. simpl. rewrite Hq. simpl.
    rewrite lookup_insert_eq. simpl.
    destruct (lookup_splice_in blk data (gpos_ b - zlen data) i) as [E|E];
      [lia|lia| |lia].
    exact E.
Qed.

(** [write_head_in_place] on the fresh owned buffer and two bytes. *)
Lemma write_head_in_place_witness :
  wf heap1 owned0 /\
  exists b' h',
    write_head al_plain [x01; x02] 2 owned0 heap1 = Done b' h' /\
    b' = set_gpos_ 62 owned0.
Proof.
  split; [exact wf_owned0|].
  destruct (write_head_in_place al_plain al_plain [x01; x02] owned0 heap1
              wf_owned0 eq_refl)
    as (b' & h' & Hw & _ & _ & Hb & _).
  { vm_compute. discriminate. }
  exists b', h'. split; [exact Hw|exact Hb].
Defined.

(** A [write_head] that does not fit the margin always moves the buffer.
    The pointer [get_buf] returned before the call no longer points to
    allocated memory, the new block has
    [max (n + ppos_) (ppos_ + 64)] bytes and is full up to its end
    ([ppos_ = pend_], whatever room the old block had left), and the margin
    that remains in front is [max gpos_ (gpos_ + 64 - n)] for the old
    [gpos_], so it is 0 when the old margin was 0 and the header has 64
    bytes or more.  No other block of the heap changes.  The buffer
    returned is well formed and owned: [buf_] points to a live block of
    exactly [pend_] bytes, which from [gpos_] on holds the header followed
    by the old content. *)
Theorem write_head_moves_buffer al data b h :
  wf h b -> const_buf_ b = false ->
  gpos_ b < zlen data ->
  grants al h (Z.max (zlen data + ppos_ b)
                     (ppos_ b + RESERVED_HEADER_SPACE)) = true ->
  exists b' h',
    write_head al data (zlen data) b h = Done b' h' /\
    buf_ b' <> buf_ b /\ deref h' (buf_ b) = None /\
    pend_ b' = Z.max (zlen data + ppos_ b) (ppos_ b + RESERVED_HEADER_SPACE) /\
    ppos_ b' = pend_ b' /\
    gpos_ b' = Z.max (gpos_ b) (gpos_ b + RESERVED_HEADER_SPACE - zlen data) /\
    (forall r, Npos r <> buf_ b -> Npos r <> buf_ b' -> h' !! r = h !! r) /\
    wf h' b' /\ const_buf_ b' = false /\
    deref h' (buf_ b') = Some (region h' b') /\
    zlen (region h' b') = pend_ b' /\
    drop (Z.to_nat (gpos_ b')) (region h' b') = data ++ content h b /\
    content h' b' = data ++ content h b.
Proof.
  intros Hwf Hc Hshort Hgr. fold (head_grown b (zlen data)) in *.
  destruct (wf_block h b Hwf) as (q & blk & Hq & Hblk & _).
  pose proof (fresh_block_free h) as Hfresh.
  assert (fresh_block h <> q) as Hne by congruence.
  pose proof (write_head_moves_eq al data b h q blk Hwf Hc Hq Hblk Hshort Hgr)
    as Heq.
  destruct (write_head_Done_inv al data b h _ _ Hwf Heq)
    as (_ & Hwf' & Hc' & _ & Hcont & _).
  eexists _, _.
  split; [exact Heq|].
  split; [simpl; rewrite Hq; congruence|]. split.
  { rewrite Hq. simpl. rewrite lookup_insert_ne, lookup_delete_eq by exact Hne.
    reflexivity. }
  split; [reflexivity|]. split; [reflexivity|]. split.
  { simpl. unfold head_grown. lia. }
  split.
  { intros r Hr Hr'. rewrite Hq in Hr. simpl in Hr'.
    rewrite lookup_insert_ne, lookup_delete_ne by congruence. reflexivity. }
  split; [exact Hwf'|]. split; [reflexivity|].
  match type of Hwf' with wf ?h' ?b' =>
    destruct (wf_block h' b' Hwf') as (q' & blk' & Hq' & Hblk' & _ & Hown');
    assert (region h' b' = blk') as Hreg
      by (unfold region; rewrite Hq'; simpl; rewrite Hblk'; reflexivity)
  end.
  split; [rewrite Hreg, Hq'; exact Hblk'|].
  assert (zlen blk' = head_grown b (zlen data)) as Hlen'
    by (exact (Hown' eq_refl)).
  split; [rewrite Hreg; exact Hlen'|].
  split; [|exact Hcont].
  etransitivity; [|exact Hcont]. symmetry.
  apply content_to_end; [exact Hwf'|].
  rewrite Hreg, Hlen'. reflexivity.
Qed.

(** [write_head_moves_buffer] on the fresh owned buffer and a header of 100
    bytes: the new block has 164 bytes and the margin is the old 64. *)
Lemma write_head_moves_buffer_witness :
  wf heap1 owned0 /\
  exists b' h',
    write_head al_plain (repeat x07 100) 100 owned0 heap1 = Done b' h' /\
    deref h' (buf_ owned0) = None /\ pend_ b' = 164 /\ gpos_ b' = 64 /\
    zlen (region h' b') = pend_ b' /\ wf h' b'.
Proof.
  split; [exact wf_owned0|].
  destruct (write_head_moves_buffer al_plain (repeat x07 100) owned0 heap1
              wf_owned0 eq_refl)
    as (b' & h' & Hw & _ & Hd & Hp & _ & Hg & _ & Hwf' & _ & _ & Hlen & _).
  { vm_compute. reflexivity. }
  { reflexivity. }
  exists b', h'. split; [exact Hw|]. split; [exact Hd|].
  split; [exact Hp|]. split; [exact Hg|]. split; [exact Hlen|exact Hwf'].
Defined.

(** ** When [swap] is an exchange *)

(** [swap] returns the two instances exchanged exactly when [rhs] has no
    unread bytes ([rhs.gpos_ = rhs.ppos_]) and [this] has its [gpos_] at
    that same offset.  The pointer, the ownership flag and [pend_] are
    exchanged in every case. *)
Theorem swap_exchanges_iff this rhs :
  (swap this rhs = (rhs, this) <->
   gpos_ rhs = ppos_ rhs /\ gpos_ this = ppos_ rhs) /\
  buf_ (fst (swap this rhs)) = buf_ rhs /\
  buf_ (snd (swap this rhs)) = buf_ this /\
  const_buf_ (fst (swap this rhs)) = const_buf_ rhs /\
  const_buf_ (snd (swap this rhs)) = const_buf_ this /\
  pend_ (fst (swap this rhs)) = pend_ rhs /\
  pend_ (snd (swap this rhs)) = pend_ this.
Proof.
  rewrite swap_fields. split; [|repeat split].
  destruct this as [ba ca ea ga pa], rhs as [bb cb eb gb pb]. simpl. split.
  - intros [= Hg Hp]. split; congruence.
  - intros [-> ->]. reflexivity.
Qed.

(** [swap_exchanges_iff]: a buffer with ten bytes written swapped with a
    fresh one. *)
Lemma swap_exchanges_iff_witness :
  swap {| buf_ := 2; const_buf_ := false; pend_ := 128; gpos_ := 64; ppos_ := 74 |}
       {| buf_ := 3; const_buf_ := false; pend_ := 128; gpos_ := 64; ppos_ := 64 |}
  = ({| buf_ := 3; const_buf_ := false; pend_ := 128; gpos_ := 64; ppos_ := 64 |},
     {| buf_ := 2; const_buf_ := false; pend_ := 128; gpos_ := 64; ppos_ := 74 |}).
Proof.
  apply (proj1 (swap_exchanges_iff _ _)). simpl. split; reflexivity.
Defined.

(** ** Sequences of calls on one instance *)

Lemma get_size_content h b :
  wf h b -> get_size b h = Done (zlen (content h b), b) h.
Proof.
  intros Hwf. unfold get_size, ret, zlen.
  rewrite (length_content h b Hwf).
  destruct (wf_block h b Hwf) as (q & blk & _ & _ & Hlen & _).
  destruct Hwf as [_ Hg [Ho1 Ho2] _].
  rewrite SizeTFacts.sub_exact by szlia. do 2 f_equal. lia.
Qed.

Lemma step_refines al c w w' :
  wf (store w) (obj_a w) -> queue_call c = true ->
  step al c w = Some w' ->
  wf (store w') (obj_a w') /\
  const_buf_ (obj_a w') = const_buf_ (obj_a w) /\
  deque_step c (content (store w) (obj_a w)) =
    Some (content (store w') (obj_a w')).
Proof.
  intros Hwf Hq Hstep.
  destruct c as [[|] d|[|] n|[|] d|s|s p n|[|]]; try discriminate; simpl in *.
  - destruct (write al d (zlen d) (obj_a w) (store w)) as [b h| |] eqn:Hw;
      [|discriminate..].
    injection Hstep as <-. simpl.
    destruct (write_Done_inv al d _ _ _ _ Hwf Hw) as (Hc & _ & Hc' & _).
    destruct (write_content al d _ _ _ _ Hwf Hw) as (Hwf' & _ & Hcont).
    rewrite Hcont. split; [exact Hwf'|]. split; [congruence|reflexivity].
  - destruct (read al n (obj_a w) (store w)) as [[out b] h| |] eqn:Hr;
      [|discriminate..].
    injection Hstep as <-. simpl.
    pose proof (read_wf al n _ _ _ _ _ Hwf Hr) as Hwf'.
    destruct (wf_block _ _ Hwf) as (q & blk & Hq' & Hblk & Hlen & _).
    pose proof (length_content _ _ Hwf) as Hlc.
    pose proof Hwf as [_ Hg [Ho1 Ho2] _].
    destruct (read_Done_inv al n _ _ _ _ _ Hr)
      as (blk' & Hblk' & _ & Hn & Hfit & Hle & _ & -> & ->).
    rewrite Hq' in Hblk'. simpl in Hblk'. rewrite Hblk in Hblk'.
    injection Hblk' as <-.
    assert (SizeT.add (gpos_ (obj_a w)) n = gpos_ (obj_a w) + n) as Hadd.
    { apply SizeTFacts.add_exact; szlia. }
    rewrite Hadd in *.
    split; [exact Hwf'|]. split; [reflexivity|].
    assert (n <= zlen (content (store w) (obj_a w))) as Hnl
      by (unfold zlen; lia).
    destruct (Z.leb_spec 0 n); [|lia].
    destruct (Z.leb_spec n (zlen (content (store w) (obj_a w)))); [|lia].
    simpl. f_equal. unfold content, region. simpl.
    rewrite skipn_firstn_comm, drop_drop. f_equal; [lia|f_equal; lia].
  - destruct (write_head al d (zlen d) (obj_a w) (store w)) as [b h| |] eqn:Hw;
      [|discriminate..].
    injection Hstep as <-. simpl.
    destruct (write_head_Done_inv al d _ _ _ _ Hwf Hw)
      as (Hc & Hwf' & Hc' & _ & Hcont & _).
    rewrite Hcont. split; [exact Hwf'|]. split; [congruence|reflexivity].
  - injection Hstep as <-. simpl. auto.
Qed.

(** Every sequence of [write], [read], [write_head] and [get_size] calls
    on a well-formed instance that returns treats the unread bytes as a
    double-ended queue: [write] appends, [write_head] prepends, [read]
    takes from the front and never more than is there.  The instance is
    well formed at the end and [get_size] then returns the length of the
    queue. *)
Theorem calls_refine_deque al cs : forall w w',
  wf (store w) (obj_a w) ->
  forallb queue_call cs = true ->
  run al cs w = Some w' ->
  wf (store w') (obj_a w') /\
  deque_run cs (content (store w) (obj_a w)) =
    Some (content (store w') (obj_a w')) /\
  get_size (obj_a w') (store w') =
    Done (zlen (content (store w') (obj_a w')), obj_a w') (store w').
Proof.
  induction cs as [|c cs IH]; intros w w' Hwf Hq Hrun.
  - injection Hrun as <-. split; [exact Hwf|]. split; [reflexivity|].
    apply get_size_content. exact Hwf.
  - simpl in Hq. apply andb_true_iff in Hq as [Hc Hq]. simpl in Hrun.
    destruct (step al c w) as [w1|] eqn:Hstep; [|discriminate].
    destruct (step_refines al c w w1 Hwf Hc Hstep) as (Hwf1 & _ & Hd).
    destruct (IH w1 w' Hwf1 Hq Hrun) as (Hwf' & Hds & Hsize).
    split; [exact Hwf'|]. split; [|exact Hsize].
    simpl. rewrite Hd. exact Hds.
Qed.

(** [calls_refine_deque] on the fresh owned buffer: a body, a header, a
    read of three bytes, another body. *)
Lemma calls_refine_deque_witness :
  exists w',
    run al_plain
        [Write Lhs [x0a; x0b]; WriteHead Lhs [x01; x02]; Read Lhs 3;
         Write Lhs [x0c]; GetSize Lhs]
        {| store := heap1; obj_a := owned0; obj_b := view0 |} = Some w' /\
    deque_run
        [Write Lhs [x0a; x0b]; WriteHead Lhs [x01; x02]; Read Lhs 3;
         Write Lhs [x0c]; GetSize Lhs]
        (content heap1 owned0) = Some (content (store w') (obj_a w')) /\
    deque_run
        [Write Lhs [x0a; x0b]; WriteHead Lhs [x01; x02]; Read Lhs 3;
         Write Lhs [x0c]; GetSize Lhs]
        (content heap1 owned0) = Some [x0b; x0c].
Proof.
  eexists. split; [vm_compute; reflexivity|]. split; [|reflexivity].
  apply (calls_refine_deque al_plain
           [Write Lhs [x0a; x0b]; WriteHead Lhs [x01; x02]; Read Lhs 3;
            Write Lhs [x0c]; GetSize Lhs]
           {| store := heap1; obj_a := owned0; obj_b := view0 |} _
           wf_owned0 eq_refl).
  vm_compute. reflexivity.
Defined.

(** ** The life of an owned buffer *)

Lemma step_keeps_rest al c w w' :
  wf (store w) (obj_a w) -> const_buf_ (obj_a w) = false ->
  queue_call c = true ->
  step al c w = Some w' ->
  exists q q',
    buf_ (obj_a w) = Npos q /\ buf_ (obj_a w') = Npos q' /\
    delete q' (store w') = delete q (store w).
Proof.
  intros Hwf Hown Hq Hstep.
  destruct (wf_block _ _ Hwf) as (q & blk & Hbuf & Hblk & _).
  pose proof (fresh_block_free (store w)) as Hfresh.
  assert (fresh_block (store w) <> q) as Hne by congruence.
  exists q.
  destruct c as [[|] d|[|] n|[|] d|s|s p n|[|]]; try discriminate; simpl in *.
  - destruct (write al d (zlen d) (obj_a w) (store w)) as [b h| |] eqn:Hw;
      [|discriminate..].
    injection Hstep as <-. simpl.
    destruct (write_Done_inv al d _ _ _ _ Hwf Hw)
      as (_ & _ & _ & _ & _ & _ & [Hfit|Hgr] & _).
    + rewrite (write_fits_eq al d _ _ q blk Hwf Hown Hbuf Hblk Hfit) in Hw.
      injection Hw as <- <-. exists q. simpl.
      split; [exact Hbuf|]. split; [exact Hbuf|]. apply delete_insert_eq.
    + destruct (Z.le_gt_cases (ppos_ (obj_a w) + zlen d) (pend_ (obj_a w)))
        as [Hfit|Hbig].
      * rewrite (write_fits_eq al d _ _ q blk Hwf Hown Hbuf Hblk Hfit) in Hw.
        injection Hw as <- <-. exists q. simpl.
        split; [exact Hbuf|]. split; [exact Hbuf|]. apply delete_insert_eq.
      * rewrite (write_grows_eq al d _ _ q blk Hwf Hown Hbuf Hblk) in Hw
          by (assumption || lia).
        injection Hw as <- <-. eexists. simpl.
        split; [exact Hbuf|]. split; [reflexivity|].
        unfold grown_at, grown_around.
        destruct (moves al (store w) q (grown (obj_a w) (zlen d))).
        -- rewrite delete_insert_eq. apply delete_id.
           rewrite lookup_delete_ne by congruence. exact Hfresh.
        -- apply delete_insert_eq.
  - destruct (read al n (obj_a w) (store w)) as [[out b] h| |] eqn:Hr;
      [|discriminate..].
    injection Hstep as <-. simpl.
    destruct (read_Done_inv al n _ _ _ _ _ Hr)
      as (_ & _ & _ & _ & _ & _ & _ & -> & ->).
    exists q. simpl. auto.
  - destruct (write_head al d (zlen d) (obj_a w) (store w)) as [b h| |] eqn:Hw;
      [|discriminate..].
    injection Hstep as <-. simpl.
    destruct (Z.le_gt_cases (zlen d) (gpos_ (obj_a w))) as [Hfit|Hshort].
    + rewrite (write_head_fits_eq al d _ _ q blk Hwf Hown Hbuf Hblk Hfit) in Hw.
      injection Hw as <- <-. exists q. simpl.
      split; [exact Hbuf|]. split; [exact Hbuf|]. apply delete_insert_eq.
    + destruct (write_head_Done_inv al d _ _ _ _ Hwf Hw)
        as (_ & _ & _ & _ & _ & [?|Hgr] & _); [lia|].
      rewrite (write_head_moves_eq al d _ _ q blk Hwf Hown Hbuf Hblk) in Hw
        by (assumption || lia).
      injection Hw as <- <-. eexists. simpl.
      split; [exact Hbuf|]. split; [reflexivity|].
      rewrite delete_insert_eq. apply delete_id.
      rewrite lookup_delete_ne by congruence. exact Hfresh.
  - injection Hstep as <-. exists q. simpl. auto.
Qed.

(** An owned buffer neither leaks nor frees twice: after construction,
    any sequence of [write], [read], [write_head] and [get_size] calls that
    returns, and destruction, the heap is the heap of before the
    construction.  Whatever block the buffer moved to on the way has been
    released, and no other block was touched. *)
Theorem lifetime_restores_heap al cs h0 a h1 other w' :
  heap_ok h0 ->
  StreamBuffer_owned al h0 = Done a h1 -> buf_ a <> NULL ->
  forallb queue_call cs = true ->
  run al cs {| store := h1; obj_a := a; obj_b := other |} = Some w' ->
  StreamBuffer_destroy (obj_a w') (store w') = Done tt h0.
Proof.
  intros Hh Hctor Hp Hq Hrun.
  destruct (StreamBuffer_owned_wf al h0 a h1 Hh Hctor Hp) as (Hwf & Hown & _).
  assert (exists q, buf_ a = Npos q /\ delete q h1 = h0) as Hrest.
  { unfold StreamBuffer_owned in Hctor.
    apply bind_Done in Hctor as (p & h2 & Hm & Hret).
    injection Hret as <- <-. simpl in Hp.
    apply malloc_Done in Hm as [(_ & -> & _)|(_ & -> & ->)]; [congruence|].
    eexists. split; [reflexivity|].
    apply delete_insert_id, fresh_block_free. }
  clear Hctor Hp Hh.
  set (w := {| store := h1; obj_a := a; obj_b := other |}) in *.
  change (wf (store w) (obj_a w)) in Hwf.
  change (const_buf_ (obj_a w) = false) in Hown.
  change (exists q, buf_ (obj_a w) = Npos q /\ delete q (store w) = h0) in Hrest.
  clearbody w. clear a h1 other.
  revert w Hwf Hown Hrest Hrun.
  induction cs as [|c cs IH]; intros w Hwf Hown (q & Hbuf & Hdel) Hrun.
  - injection Hrun as <-.
    destruct (wf_block _ _ Hwf) as (q0 & blk & Hbuf0 & Hblk & _).
    rewrite Hbuf in Hbuf0. injection Hbuf0 as <-.
    unfold StreamBuffer_destroy. rewrite Hown, Hbuf.
    change (free (Npos q) (store w) = Done tt h0).
    rewrite (free_ok q _ blk Hblk), Hdel. reflexivity.
  - simpl in Hq. apply andb_true_iff in Hq as [Hc Hq]. simpl in Hrun.
    destruct (step al c w) as [w1|] eqn:Hstep; [|discriminate].
    destruct (step_refines al c w w1 Hwf Hc Hstep) as (Hwf1 & Hown1 & _).
    destruct (step_keeps_rest al c w w1 Hwf Hown Hc Hstep)
      as (q0 & q1 & Hb0 & Hb1 & Hd1).
    rewrite Hbuf in Hb0. injection Hb0 as <-.
    apply (IH Hq w1 Hwf1); [congruence| |exact Hrun].
    exists q1. split; [exact Hb1|congruence].
Qed.

(** [lifetime_restores_heap] from [heap0]: a body of 100 bytes, which makes
    the buffer grow and move, a header of 100 bytes, which makes it move
    again, and a read. *)
Lemma lifetime_restores_heap_witness :
  heap_ok heap0 /\
  exists w',
    run al_plain
        [Write Lhs (repeat x41 100); WriteHead Lhs (repeat x07 100); Read Lhs 150]
        {| store := heap1; obj_a := owned0; obj_b := view0 |} = Some w' /\
    buf_ (obj_a w') <> buf_ owned0 /\
    StreamBuffer_destroy (obj_a w') (store w') = Done tt heap0.
Proof.
  split; [exact heap_ok_heap0|].
  eexists. split; [vm_compute; reflexivity|]. split; [discriminate|].
  apply (lifetime_restores_heap al_plain
           [Write Lhs (repeat x41 100); WriteHead Lhs (repeat x07 100);
            Read Lhs 150]
           heap0 owned0 heap1 view0 _ heap_ok_heap0 owned0_constructed).
  - discriminate.
  - reflexivity.
  - vm_compute. reflexivity.
Defined.

(** ** The compaction branch of [read] *)

Lemma take_splice_front (blk d : list byte) :
  zlen d <= zlen blk -> take (length d) (splice blk 0 d) = d.
Proof.
  unfold splice. intros _. simpl. apply take_app_length.
Qed.

(** With [SHRINK_WITH_GET] set, a [read] on an owned buffer that takes
    [gpos_] past [GROW_SIZE] and leaves at least one byte of the block
    unused returns the same bytes as without compaction, moves the unread
    bytes to the front and shrinks the block: the buffer is well formed,
    [gpos_] is 0, [ppos_] and [pend_] are lower by the old [gpos_ + size],
    and the content is the old content less the bytes read.  (Under an
    allocator that refuses no request.) *)
Theorem compaction_keeps_content al n b h :
  wf h b -> const_buf_ b = false ->
  (forall h' k, refuses al h' k = false) ->
  0 <= n -> gpos_ b + n <= ppos_ b ->
  GROW_SIZE < gpos_ b + n -> gpos_ b + n < pend_ b ->
  exists b' h',
    read_with true al n b h =
      Done (take (Z.to_nat n) (content h b), b') h' /\
    wf h' b' /\ const_buf_ b' = false /\
    gpos_ b' = 0 /\
    ppos_ b' = ppos_ b - (gpos_ b + n) /\
    pend_ b' = pend_ b - (gpos_ b + n) /\
    content h' b' = drop (Z.to_nat n) (content h b).
Proof.
  intros Hwf Hc Hal Hn Hfit Hpast Hroom.
  destruct (wf_block h b Hwf) as (q & blk & Hq & Hblk & Hlen & Hown).
  destruct Hwf as [Hh Hg [Ho1 Ho2] _]. specialize (Hown Hc).
  set (g := gpos_ b + n) in *.
  set (d := take (Z.to_nat (ppos_ b - g)) (drop (Z.to_nat g) blk)).
  assert (zlen d = ppos_ b - g) as Hd by (apply zlen_slice; lia).
  set (moved := splice blk 0 d).
  assert (zlen moved = zlen blk) as Hmoved by (apply zlen_splice; lia).
  set (h1 := <[q := moved]> h).
  assert (grants al h1 (pend_ b - g) = true) as Hgr.
  { apply grants_true. split; [apply Hal|lia]. }
  set (shrunk := resized al h1 moved (pend_ b - g)).
  assert (zlen shrunk = pend_ b - g) as Hshrunk
    by (apply zlen_resized; lia).
  assert (take (Z.to_nat (ppos_ b - g)) shrunk = d) as Htake.
  { subst shrunk. rewrite take_resized by (unfold zlen in *; lia).
    subst moved. replace (Z.to_nat (ppos_ b - g)) with (length d)
      by (unfold zlen in *; lia).
    apply take_splice_front. lia. }
  assert (content h b
          = take (Z.to_nat (ppos_ b - gpos_ b)) (drop (Z.to_nat (gpos_ b)) blk))
    as Hcont by (apply content_eq; rewrite Hq; exact Hblk).
  assert (drop (Z.to_nat n) (content h b) = d) as Hrest.
  { rewrite Hcont, skipn_firstn_comm, drop_drop. subst d g.
    f_equal; [lia|f_equal; lia]. }
  set (q' := if moves al h1 q (pend_ b - g) then fresh_block h1 else q).
  set (h' := if moves al h1 q (pend_ b - g)
             then <[fresh_block h1 := shrunk]> (delete q h1)
             else <[q := shrunk]> h1).
  assert (h' !! q' = Some shrunk) as Hlook.
  { subst h' q'. destruct (moves al h1 q (pend_ b - g));
      apply lookup_insert_eq. }
  assert (heap_ok h') as Hh'.
  { assert (heap_ok h1) as Hh1 by (apply heap_ok_insert; [exact Hh|lia]).
    subst h'. destruct (moves al h1 q (pend_ b - g)).
    - apply heap_ok_insert; [apply heap_ok_delete; exact Hh1|lia].
    - apply heap_ok_insert; [exact Hh1|lia]. }
  exists {| buf_ := Npos q'; const_buf_ := false; pend_ := pend_ b - g;
            gpos_ := 0; ppos_ := ppos_ b - g |}, h'.
  split.
  { unfold read_with.
    rewrite SizeTFacts.add_exact by szlia. fold g.
    unfold bind at 1, ASSERT.
    destruct (Z.leb_spec g (ppos_ b)); [|lia].
    unfold bind at 1.
    rewrite (peek_ok (buf_ b) (gpos_ b) n h blk)
      by (rewrite ?Hq; simpl; assumption || lia).
    fields. rewrite Hc.
    destruct (Z.ltb_spec GROW_SIZE g); [|lia]. cbn [andb negb].
    rewrite !SizeTFacts.sub_exact by szlia.
    unfold bind at 1. rewrite Hq.
    rewrite (memcpy_ok q 0 (Npos q) g (ppos_ b - g) h blk blk)
      by (simpl; assumption || lia).
    fold d moved h1.
    unfold bind at 1. unfold realloc.
    assert (h1 !! q = Some moved) as -> by apply lookup_insert_eq.
    rewrite Hgr. fold shrunk.
    unfold ret. rewrite Hcont, take_take.
    replace (Z.to_nat n `min` Z.to_nat (ppos_ b - gpos_ b))%nat
      with (Z.to_nat n) by lia.
    subst h' q'.
    destruct (moves al h1 q (pend_ b - g)); simpl;
      unfold set_gpos_, set_ppos_, set_pend_, set_buf_; simpl;
      rewrite Hc; reflexivity. }
  split.
  { constructor; simpl; try lia; try assumption.
    - unfold ordered. simpl. lia.
    - exists shrunk. simpl. auto. }
  split; [reflexivity|]. split; [reflexivity|].
  split; [reflexivity|]. split; [reflexivity|].
  rewrite Hrest. unfold content, region. simpl. rewrite Hlook. simpl.
  rewrite Z.sub_0_r. exact Htake.
Qed.

(** [compaction_keeps_content] on the fresh owned buffer after a write of
    1100 bytes, and a read of 1030 of them. *)
Lemma compaction_keeps_content_witness :
  exists b h,
    write al_plain (repeat x41 1100) 1100 owned0 heap1 = Done b h /\
    wf h b /\
    exists b' h',
      read_with true al_plain 1030 b h =
        Done (take 1030 (content h b), b') h' /\
      gpos_ b' = 0 /\ ppos_ b' = ppos_ b - (gpos_ b + 1030).
Proof.
  destruct (write_total al_plain (repeat x41 1100) owned0 heap1
              wf_owned0 eq_refl (or_intror eq_refl)) as (b & h & Hw).
  destruct (write_Done_inv al_plain (repeat x41 1100) owned0 heap1 b h
              wf_owned0 Hw) as (_ & Hwf & Hc & Hg & Hp & Hpend & _).
  change (gpos_ b = 64) in Hg. change (ppos_ b = 1164) in Hp.
  change (pend_ b = 1164) in Hpend.
  exists b, h. split; [exact Hw|]. split; [exact Hwf|].
  destruct (compaction_keeps_content al_plain 1030 b h Hwf Hc)
    as (b' & h' & Hr & _ & _ & Hg' & Hp' & _).
  - reflexivity.
  - vm_compute. discriminate.
  - rewrite Hg, Hp. vm_compute. discriminate.
  - rewrite Hg. reflexivity.
  - rewrite Hg, Hpend. reflexivity.
  - exists b', h'. split; [exact Hr|]. split; [exact Hg'|exact Hp'].
Defined.

(** ** First in, first out *)

Lemma read_all_rest al rs : forall b h,
  wf h b -> (total rs <= length (content h b))%nat ->
  exists outs b', read_all al rs b h = Done (outs, b') h /\
    concat outs = take (total rs) (content h b) /\
    wf h b' /\ content h b' = drop (total rs) (content h b).
Proof.
  induction rs as [|n rs IH]; intros b h Hwf Hn.
  - exists [], b. split; [reflexivity|]. split; [reflexivity|].
    split; [exact Hwf|reflexivity].
  - simpl in Hn.
    destruct (read_content al n b h Hwf) as (b1 & Hr & Hwf1 & Hc1); [lia|].
    destruct (IH b1 h Hwf1) as (outs & b' & Hrs & Hout & Hwf' & Hrest).
    { rewrite Hc1, length_drop. lia. }
    exists (take n (content h b) :: outs), b'. split; [|split; [|split]].
    + simpl. unfold bind. rewrite Hr. simpl. rewrite Hrs. reflexivity.
    + simpl. rewrite Hout, Hc1. apply take_take_drop.
    + exact Hwf'.
    + rewrite Hrest, Hc1, drop_drop. reflexivity.
Qed.

(** Whatever a buffer holds, reads after writes return the oldest unread
    bytes first: once a sequence of writes has returned, every sequence of
    reads that asks for no more than is there returns, and the bytes read
    are the front of the old content followed by the written bytes; the
    rest stays in the buffer, in order. *)
Theorem reads_return_oldest_first al ws rs b h b1 h1 :
  wf h b ->
  write_all al ws b h = Done b1 h1 ->
  (total rs <= length (content h b ++ concat ws))%nat ->
  exists outs b2,
    read_all al rs b1 h1 = Done (outs, b2) h1 /\
    concat outs = take (total rs) (content h b ++ concat ws) /\
    content h1 b2 = drop (total rs) (content h b ++ concat ws).
Proof.
  intros Hwf Hw Hlen.
  destruct (write_all_content al ws b h b1 h1 Hwf Hw) as (Hwf1 & Hc).
  rewrite <- Hc in *.
  destruct (read_all_rest al rs b1 h1 Hwf1 Hlen)
    as (outs & b2 & Hr & Hout & _ & Hrest).
  exists outs, b2. auto.
Qed.

(** [reads_return_oldest_first] on the buffer that holds the byte 1: two
    bytes written, two read. *)
Lemma reads_return_oldest_first_witness :
  exists b1 h1 outs b2,
    write_all al_plain [[x02]; [x03]] owned1 heap2 = Done b1 h1 /\
    read_all al_plain [2%nat] b1 h1 = Done (outs, b2) h1 /\
    concat outs = [x01; x02] /\ content h1 b2 = [x03].
Proof.
  eexists _, _.
  assert (write_all al_plain [[x02]; [x03]] owned1 heap2 = Done _ _) as Hw
    by (vm_compute; reflexivity).
  destruct (reads_return_oldest_first al_plain [[x02]; [x03]] [2%nat]
              owned1 heap2 _ _ wf_owned1 Hw)
    as (outs & b2 & Hr & Hout & Hrest).
  { vm_compute. lia. }
  exists outs, b2. split; [exact Hw|]. split; [exact Hr|].
  split; [exact Hout|exact Hrest].
Defined.
